(** * OSKAR: status channel, typed buffers, auto-power dispatch, baselines

    A shallow embedding of the sources

      - oskar/correlate/src/oskar_evaluate_auto_power.c
      - sky/src/oskar_sky_override_polarisation.c
      - utility/src/oskar_mem_load_ascii.c
      - interferometry/src/oskar_vis_create.c
      - station/src/oskar_station_override_element_orientations.c
      - station/src/oskar_station_save_orientation.c
      - settings/types/src/oskar_DoubleRange.cpp

    and of the routines declared in
    oskar/convert/oskar_convert_station_uvw_to_baseline_uvw.h, together
    with the collaborators they call.  C [int]s are integers in [Z]
    (32-bit arithmetic is written out where the code computes with it),
    [double]s are binary64 floats, arrays are lists, and a function that
    takes an [int* status] takes the incoming status value and hands back the
    outgoing one next to everything else it may have changed. *)

From Stdlib Require Import ZArith List Lia String.
From Stdlib Require Import Floats.PrimFloat.
From Stdlib Require Import Ascii Floats.SpecFloat Floats.FloatOps Floats.FloatAxioms.
From stdpp Require Import base numbers list sets.

Local Open Scope Z_scope.

(** ** Enumerators of the global headers *)

(** The error codes, memory locations and element-type tags are enumerators
    of [oskar_global.h] and [oskar_mem.h].  The sources at hand use them by
    name only, so their integer values are parameters of the development.
    What is recorded about them is what a C [enum] of error codes with
    "zero means no error" gives: error codes are non-zero and pairwise
    distinct, the two locations differ, and the type tags are pairwise
    distinct (all but [OSKAR_CHAR] are [case] labels of the one [switch] of
    [store_data]). *)
Class OskarGlobal : Type := {
  OSKAR_ERR_FILE_IO : Z;
  OSKAR_ERR_INVALID_ARGUMENT : Z;
  OSKAR_ERR_MEMORY_ALLOC_FAILURE : Z;
  OSKAR_ERR_TYPE_MISMATCH : Z;
  OSKAR_ERR_LOCATION_MISMATCH : Z;
  OSKAR_ERR_DIMENSION_MISMATCH : Z;
  OSKAR_ERR_BAD_DATA_TYPE : Z;
  OSKAR_ERR_BAD_LOCATION : Z;
  OSKAR_ERR_CUDA_NOT_AVAILABLE : Z;
  OSKAR_CPU : Z;
  OSKAR_GPU : Z;
  OSKAR_CHAR : Z;
  OSKAR_INT : Z;
  OSKAR_SINGLE : Z;
  OSKAR_DOUBLE : Z;
  OSKAR_SINGLE_COMPLEX : Z;
  OSKAR_DOUBLE_COMPLEX : Z;
  OSKAR_SINGLE_COMPLEX_MATRIX : Z;
  OSKAR_DOUBLE_COMPLEX_MATRIX : Z;
  oskar_error_codes :=
    [ OSKAR_ERR_FILE_IO; OSKAR_ERR_INVALID_ARGUMENT;
      OSKAR_ERR_MEMORY_ALLOC_FAILURE; OSKAR_ERR_TYPE_MISMATCH;
      OSKAR_ERR_LOCATION_MISMATCH; OSKAR_ERR_DIMENSION_MISMATCH;
      OSKAR_ERR_BAD_DATA_TYPE; OSKAR_ERR_BAD_LOCATION;
      OSKAR_ERR_CUDA_NOT_AVAILABLE ];
  oskar_type_tags :=
    [ OSKAR_CHAR; OSKAR_INT; OSKAR_SINGLE; OSKAR_DOUBLE;
      OSKAR_SINGLE_COMPLEX; OSKAR_DOUBLE_COMPLEX;
      OSKAR_SINGLE_COMPLEX_MATRIX; OSKAR_DOUBLE_COMPLEX_MATRIX ];
  oskar_errors_nonzero : Forall (fun e => e <> 0) oskar_error_codes;
  oskar_errors_distinct : NoDup oskar_error_codes;
  oskar_locations_distinct : OSKAR_CPU <> OSKAR_GPU;
  oskar_types_distinct : NoDup oskar_type_tags
}.

(** One assignment of integers to the enumerators, used to run the
    definitions on concrete calls; the general statements below hold for
    every assignment. *)
Program Definition sample_global : OskarGlobal := {|
  OSKAR_ERR_FILE_IO := -2;
  OSKAR_ERR_INVALID_ARGUMENT := -3;
  OSKAR_ERR_MEMORY_ALLOC_FAILURE := -4;
  OSKAR_ERR_TYPE_MISMATCH := -6;
  OSKAR_ERR_LOCATION_MISMATCH := -7;
  OSKAR_ERR_DIMENSION_MISMATCH := -8;
  OSKAR_ERR_BAD_DATA_TYPE := -10;
  OSKAR_ERR_BAD_LOCATION := -11;
  OSKAR_ERR_CUDA_NOT_AVAILABLE := -21;
  OSKAR_CPU := 0;
  OSKAR_GPU := 1;
  OSKAR_CHAR := 1;
  OSKAR_INT := 2;
  OSKAR_SINGLE := 4;
  OSKAR_DOUBLE := 8;
  OSKAR_SINGLE_COMPLEX := 36;
  OSKAR_DOUBLE_COMPLEX := 40;
  OSKAR_SINGLE_COMPLEX_MATRIX := 100;
  OSKAR_DOUBLE_COMPLEX_MATRIX := 104
|}.
Next Obligation. compute_done. Qed.
Next Obligation. compute_done. Qed.
Next Obligation. compute_done. Qed.
Next Obligation. compute_done. Qed.

(** ** Typed, location-tagged buffers *)

(** One element of a buffer: a real (float or double), a complex pair
    ([float2], [double2]), a 2x2 complex matrix ([float4c], [double4c]:
    members a, b, c, d, each with x and y), or an [int]. *)
Inductive elem : Type :=
| ElemReal (x : float)
| ElemComplex (x y : float)
| ElemMatrix (a b c d : float * float)
| ElemInt (n : Z).

(** [oskar_Mem]: the type tag, the location tag and the array itself.  The
    accessors [oskar_mem_type()], [oskar_mem_location()] and
    [oskar_mem_length()] of the C interface read these members. *)
Record oskar_Mem : Type := {
  oskar_mem_type : Z;
  oskar_mem_location : Z;
  oskar_mem_data : list elem
}.

Definition oskar_mem_length (mem : oskar_Mem) : nat :=
  length (oskar_mem_data mem).

Definition oskar_mem_set_data (mem : oskar_Mem) (data : list elem) : oskar_Mem :=
  {| oskar_mem_type := oskar_mem_type mem;
     oskar_mem_location := oskar_mem_location mem;
     oskar_mem_data := data |}.

Section Buffers.
Context {G : OskarGlobal}.

(** Modelled from the spec: the typed pointer accessors
    ([oskar_mem_float4c()], [oskar_mem_double_const()], ...) are declared
    in [oskar_mem.h], which is not among the sources.  By the TypedBuffer
    invariant (a combination with the wrong element type fails with a
    type-mismatch error and never coerces) the accessor for tag [ty] hands
    out the array and flags a mismatch when the buffer's tag is not [ty]. *)
Definition oskar_mem_accessor (ty : Z) (mem : oskar_Mem) (status : Z)
  : list elem * Z :=
  (oskar_mem_data mem,
   if oskar_mem_type mem =? ty then status else OSKAR_ERR_TYPE_MISMATCH).

End Buffers.

(** ** The auto-power dispatch: oskar_evaluate_auto_power.c *)

(** The inner loops are defined in [oskar_evaluate_auto_power_c.h] and
    [oskar_evaluate_auto_power_cuda.h], and [oskar_device_check_error] in
    the device utilities; none is among the sources.  Each kernel reads
    [num_sources], the Jones array and the output array and leaves a new
    output array. *)
Class AutoPowerKernels : Type := {
  oskar_evaluate_auto_power_f : Z -> list elem -> list elem -> list elem;
  oskar_evaluate_auto_power_d : Z -> list elem -> list elem -> list elem;
  oskar_evaluate_auto_power_scalar_f : Z -> list elem -> list elem -> list elem;
  oskar_evaluate_auto_power_scalar_d : Z -> list elem -> list elem -> list elem;
  oskar_evaluate_auto_power_cuda_f : Z -> list elem -> list elem -> list elem;
  oskar_evaluate_auto_power_cuda_d : Z -> list elem -> list elem -> list elem;
  oskar_evaluate_auto_power_scalar_cuda_f : Z -> list elem -> list elem -> list elem;
  oskar_evaluate_auto_power_scalar_cuda_d : Z -> list elem -> list elem -> list elem;
  oskar_device_check_error : Z -> Z
}.

Section AutoPower.
Context {G : OskarGlobal} {K : AutoPowerKernels}.

(** One arm of the [switch]: both typed pointers are fetched (each may
    flag the status), then the kernel runs on them. *)
Definition auto_power_case (ty : Z)
    (kernel : Z -> list elem -> list elem -> list elem)
    (num_sources : Z) (jones out : oskar_Mem) (status : Z) : oskar_Mem * Z :=
  let '(jones_, status) := oskar_mem_accessor ty jones status in
  let '(out_, status) := oskar_mem_accessor ty out status in
  (oskar_mem_set_data out (kernel num_sources jones_ out_), status).

(** [void oskar_evaluate_auto_power(int num_sources, const oskar_Mem* jones,
    oskar_Mem* out, int* status)].  [have_cuda] is the compile-time flag
    [OSKAR_HAVE_CUDA]. *)
Definition oskar_evaluate_auto_power (have_cuda : bool) (num_sources : Z)
    (jones out : oskar_Mem) (status : Z) : oskar_Mem * Z :=
  (* Check if safe to proceed. *)
  if negb (status =? 0) then (out, status) else
  (* Check type and location. *)
  let type := oskar_mem_type jones in
  let location := oskar_mem_location jones in
  if negb (type =? oskar_mem_type out) then (out, OSKAR_ERR_TYPE_MISMATCH) else
  if negb (location =? oskar_mem_location out)
  then (out, OSKAR_ERR_LOCATION_MISMATCH) else
  (* Switch on type and location combination. *)
  if location =? OSKAR_CPU then
    if type =? OSKAR_SINGLE_COMPLEX_MATRIX then
      auto_power_case OSKAR_SINGLE_COMPLEX_MATRIX
        oskar_evaluate_auto_power_f num_sources jones out status
    else if type =? OSKAR_DOUBLE_COMPLEX_MATRIX then
      auto_power_case OSKAR_DOUBLE_COMPLEX_MATRIX
        oskar_evaluate_auto_power_d num_sources jones out status
    else if type =? OSKAR_SINGLE_COMPLEX then
      auto_power_case OSKAR_SINGLE_COMPLEX
        oskar_evaluate_auto_power_scalar_f num_sources jones out status
    else if type =? OSKAR_DOUBLE_COMPLEX then
      auto_power_case OSKAR_DOUBLE_COMPLEX
        oskar_evaluate_auto_power_scalar_d num_sources jones out status
    else (out, OSKAR_ERR_BAD_DATA_TYPE)
  else if location =? OSKAR_GPU then
    if have_cuda then
      if type =? OSKAR_SINGLE_COMPLEX_MATRIX then
        let '(out, status) :=
          auto_power_case OSKAR_SINGLE_COMPLEX_MATRIX
            oskar_evaluate_auto_power_cuda_f num_sources jones out status in
        (out, oskar_device_check_error status)
      else if type =? OSKAR_DOUBLE_COMPLEX_MATRIX then
        let '(out, status) :=
          auto_power_case OSKAR_DOUBLE_COMPLEX_MATRIX
            oskar_evaluate_auto_power_cuda_d num_sources jones out status in
        (out, oskar_device_check_error status)
      else if type =? OSKAR_SINGLE_COMPLEX then
        let '(out, status) :=
          auto_power_case OSKAR_SINGLE_COMPLEX
            oskar_evaluate_auto_power_scalar_cuda_f num_sources jones out status in
        (out, oskar_device_check_error status)
      else if type =? OSKAR_DOUBLE_COMPLEX then
        let '(out, status) :=
          auto_power_case OSKAR_DOUBLE_COMPLEX
            oskar_evaluate_auto_power_scalar_cuda_d num_sources jones out status in
        (out, oskar_device_check_error status)
      else (out, OSKAR_ERR_BAD_DATA_TYPE)
    else (out, OSKAR_ERR_CUDA_NOT_AVAILABLE)
  else (out, status).

(** The four element types the dispatch has an inner loop for. *)
Definition auto_power_supported (type : Z) : Prop :=
  type = OSKAR_SINGLE_COMPLEX_MATRIX \/ type = OSKAR_DOUBLE_COMPLEX_MATRIX \/
  type = OSKAR_SINGLE_COMPLEX \/ type = OSKAR_DOUBLE_COMPLEX.

End AutoPower.

(** ** The status channel's invalid-argument macro *)

Section InvalidArgument.
Context {G : OskarGlobal}.

(** Modelled from the spec: [oskar_set_invalid_argument] is a macro of
    [oskar_global.h], which is not among the sources.  The error taxonomy
    has [InvalidArgument] for a null required handle, and the status code
    is the only channel an error is reported through: the macro stores
    the invalid-argument code through the status pointer when there is
    one ([None] is the null pointer). *)
Definition oskar_set_invalid_argument (status : option Z) : option Z :=
  match status with
  | Some _ => Some OSKAR_ERR_INVALID_ARGUMENT
  | None => None
  end.

End InvalidArgument.

(** ** The sky-model polarisation override: oskar_sky_override_polarisation.c *)

(** The members of [oskar_Sky] this file reads or writes through the sky
    accessors, and the remaining arrays of the structure, which it never
    names. *)
Record oskar_Sky : Type := {
  oskar_sky_precision : Z;
  oskar_sky_mem_location : Z;
  oskar_sky_num_sources : Z;
  oskar_sky_I : oskar_Mem;
  oskar_sky_Q : oskar_Mem;
  oskar_sky_U : oskar_Mem;
  oskar_sky_other_arrays : list oskar_Mem
}.

(** The C library and the random-number helper: [srand] sets the state of
    the process-wide generator, [oskar_random_gaussian] draws from it,
    returns one deviate and stores a second one through its pointer
    argument.  [to_float] and [to_int] are the conversions of a [double] to
    [float] and to [int]. *)
Class CRuntime : Type := {
  rand_state : Type;
  srand : Z -> rand_state;
  oskar_random_gaussian : rand_state -> float * float * rand_state;
  libm_cos : float -> float;
  libm_sin : float -> float;
  libm_floor : float -> float;
  to_float : float -> float;
  to_int : float -> Z
}.

(** [p[i]] for a [double*] or [float*] into a buffer; C leaves a read past
    the end or of another element type undefined, here it reads as 0. *)
Definition elem_real_at (data : list elem) (i : nat) : float :=
  match data !! i with
  | Some (ElemReal x) => x
  | _ => 0%float
  end.

Section OverridePolarisation.
Context {G : OskarGlobal} {L : CRuntime}.

(** The body of the [for] loop at index [i]; [store] is the identity for
    the double-precision arrays and [to_float] for the single-precision
    ones.  [Q_[i] = ...] is the store of one element: that is what the C
    store is on an array tagged with the branch's precision and long
    enough.  On an array tagged otherwise the store goes through a pointer
    of the wrong width and on a shorter one past the end; C leaves both
    undefined, and the statements about what the loop writes are made for
    arrays tagged with the branch's precision. *)
Definition override_polarisation_step (store : float -> float)
    (mean_pol_fraction std_pol_fraction mean_pol_angle_rad
       std_pol_angle_rad : float)
    (I_ : list elem) (st : list elem * list elem * rand_state) (i : nat)
  : list elem * list elem * rand_state :=
  let '(Q_, U_, rng) := st in
  (* Generate polarisation angle and polarisation fraction. *)
  let '(pol_fraction, pol_angle_rad, rng) := oskar_random_gaussian rng in
  let pol_angle_rad := (pol_angle_rad * std_pol_angle_rad)%float in
  let pol_angle_rad := (pol_angle_rad + mean_pol_angle_rad)%float in
  let pol_fraction := (pol_fraction * std_pol_fraction)%float in
  let pol_fraction := (pol_fraction + mean_pol_fraction)%float in
  let pol_fraction :=
    if (1 <? pol_fraction)%float then 1%float else pol_fraction in
  let pol_fraction :=
    if (pol_fraction <? 0)%float then 0%float else pol_fraction in
  (* Generate Stokes Q and U values. *)
  let pol_angle_rad := (pol_angle_rad * 2)%float in
  let q := (pol_fraction * elem_real_at I_ i * libm_cos pol_angle_rad)%float in
  let u := (pol_fraction * elem_real_at I_ i * libm_sin pol_angle_rad)%float in
  (<[i := ElemReal (store q)]> Q_, <[i := ElemReal (store u)]> U_, rng).

Definition override_polarisation_loop (store : float -> float)
    (mean_pol_fraction std_pol_fraction mean_pol_angle_rad
       std_pol_angle_rad : float)
    (num_sources : Z) (I_ Q_ U_ : list elem) (rng : rand_state)
  : list elem * list elem * rand_state :=
  fold_left
    (override_polarisation_step store mean_pol_fraction std_pol_fraction
       mean_pol_angle_rad std_pol_angle_rad I_)
    (seq 0 (Z.to_nat num_sources)) (Q_, U_, rng).

Definition oskar_sky_set_Q_U (sky : oskar_Sky) (Q_ U_ : list elem) : oskar_Sky :=
  {| oskar_sky_precision := oskar_sky_precision sky;
     oskar_sky_mem_location := oskar_sky_mem_location sky;
     oskar_sky_num_sources := oskar_sky_num_sources sky;
     oskar_sky_I := oskar_sky_I sky;
     oskar_sky_Q := oskar_mem_set_data (oskar_sky_Q sky) Q_;
     oskar_sky_U := oskar_mem_set_data (oskar_sky_U sky) U_;
     oskar_sky_other_arrays := oskar_sky_other_arrays sky |}.

(** One precision branch: fetch the three typed pointers, run the loop. *)
Definition override_polarisation_branch (ty : Z) (store : float -> float)
    (sky : oskar_Sky)
    (mean_pol_fraction std_pol_fraction mean_pol_angle_rad
       std_pol_angle_rad : float)
    (num_sources : Z) (status : Z) (rng : rand_state)
  : oskar_Sky * Z * rand_state :=
  let '(I_, status) := oskar_mem_accessor ty (oskar_sky_I sky) status in
  let '(Q_, status) := oskar_mem_accessor ty (oskar_sky_Q sky) status in
  let '(U_, status) := oskar_mem_accessor ty (oskar_sky_U sky) status in
  let '(Q_, U_, rng) :=
    override_polarisation_loop store mean_pol_fraction std_pol_fraction
      mean_pol_angle_rad std_pol_angle_rad num_sources I_ Q_ U_ rng in
  (oskar_sky_set_Q_U sky Q_ U_, status, rng).

(** [void oskar_sky_override_polarisation(oskar_Sky* sky,
    double mean_pol_fraction, double std_pol_fraction,
    double mean_pol_angle_rad, double std_pol_angle_rad, int seed,
    int* status)].  [sky] and [status] are pointers that may be null; the
    state of the random generator is the process-wide state the call may
    change. *)
Definition oskar_sky_override_polarisation (sky : option oskar_Sky)
    (mean_pol_fraction std_pol_fraction mean_pol_angle_rad
       std_pol_angle_rad : float)
    (seed : Z) (status : option Z) (rng : rand_state)
  : option oskar_Sky * option Z * rand_state :=
  match sky, status with
  | Some sky_, Some status_ =>
    (* Check if safe to proceed. *)
    if negb (status_ =? 0) then (sky, status, rng) else
    (* Skip if not required. *)
    if (mean_pol_fraction <? 0)%float then (sky, status, rng) else
    (* Get the data location and type. *)
    let location := oskar_sky_mem_location sky_ in
    let type := oskar_sky_precision sky_ in
    let num_sources := oskar_sky_num_sources sky_ in
    if location =? OSKAR_CPU then
      (* Seed the random generator. *)
      let rng := srand seed in
      if type =? OSKAR_DOUBLE then
        let '(sky_, status_, rng) :=
          override_polarisation_branch OSKAR_DOUBLE (fun x => x) sky_
            mean_pol_fraction std_pol_fraction mean_pol_angle_rad
            std_pol_angle_rad num_sources status_ rng in
        (Some sky_, Some status_, rng)
      else if type =? OSKAR_SINGLE then
        let '(sky_, status_, rng) :=
          override_polarisation_branch OSKAR_SINGLE to_float sky_
            mean_pol_fraction std_pol_fraction mean_pol_angle_rad
            std_pol_angle_rad num_sources status_ rng in
        (Some sky_, Some status_, rng)
      else (sky, Some OSKAR_ERR_BAD_DATA_TYPE, rng)
    else (sky, Some OSKAR_ERR_BAD_LOCATION, rng)
  | _, _ =>
    (* Check all inputs. *)
    (sky, oskar_set_invalid_argument status, rng)
  end.

End OverridePolarisation.

(** ** C [int] arithmetic *)

(** The value of a 32-bit two's-complement [int] holding [z].  C leaves
    signed overflow undefined; the wrap-around written out here is what the
    machines OSKAR is built for compute. *)
Definition int_wrap (z : Z) : Z := (z + 2 ^ 31) mod 2 ^ 32 - 2 ^ 31.
Definition int_mul (a b : Z) : Z := int_wrap (a * b).
Definition int_sub (a b : Z) : Z := int_wrap (a - b).
(** [/] on [int]s truncates towards zero. *)
Definition int_div (a b : Z) : Z := int_wrap (a ÷ b).

Definition INT_MAX : Z := 2 ^ 31 - 1.

(** ** Buffer operations that live outside the sources *)

(** [oskar_mem_create], [oskar_mem_copy] and [oskar_mem_free] are defined in
    the memory module, which is not among the sources; [alloc_ok n] tells
    whether the allocator grants a block of [n] items. *)
Class MemOps : Type := {
  oskar_mem_create : Z -> Z -> Z -> Z -> oskar_Mem * Z;
  oskar_mem_copy : oskar_Mem -> oskar_Mem -> Z -> oskar_Mem * Z;
  oskar_mem_free : oskar_Mem -> Z -> Z;
  alloc_ok : nat -> bool
}.

Section TypePredicates.
Context {G : OskarGlobal}.

Definition tag_in (ty : Z) (tags : list Z) : bool :=
  existsb (Z.eqb ty) tags.

(** Modelled from the spec: the tag predicates of [oskar_mem.h] (not among
    the sources), read off the data model: an element type is a real
    scalar, a complex scalar or a complex 2x2 matrix, each in single or
    double precision. *)
Definition oskar_mem_type_is_double (ty : Z) : bool :=
  tag_in ty [OSKAR_DOUBLE; OSKAR_DOUBLE_COMPLEX; OSKAR_DOUBLE_COMPLEX_MATRIX].

(** Modelled from the spec: see [oskar_mem_type_is_double]. *)
Definition oskar_mem_type_is_single (ty : Z) : bool :=
  tag_in ty [OSKAR_SINGLE; OSKAR_SINGLE_COMPLEX; OSKAR_SINGLE_COMPLEX_MATRIX].

(** Modelled from the spec: see [oskar_mem_type_is_double]. *)
Definition oskar_mem_type_is_complex (ty : Z) : bool :=
  tag_in ty [OSKAR_SINGLE_COMPLEX; OSKAR_DOUBLE_COMPLEX;
             OSKAR_SINGLE_COMPLEX_MATRIX; OSKAR_DOUBLE_COMPLEX_MATRIX].

(** Modelled from the spec: see [oskar_mem_type_is_double]. *)
Definition oskar_mem_type_is_matrix (ty : Z) : bool :=
  tag_in ty [OSKAR_SINGLE_COMPLEX_MATRIX; OSKAR_DOUBLE_COMPLEX_MATRIX].

Definition oskar_mem_is_complex (mem : oskar_Mem) : bool :=
  oskar_mem_type_is_complex (oskar_mem_type mem).

Definition oskar_mem_is_matrix (mem : oskar_Mem) : bool :=
  oskar_mem_type_is_matrix (oskar_mem_type mem).

End TypePredicates.

(** ** The visibility structure: oskar_vis_create.c *)

Record oskar_Vis : Type := {
  vis_num_stations : Z;
  vis_num_channels : Z;
  vis_num_times : Z;
  vis_num_baselines : Z;
  vis_freq_start_hz : float;
  vis_freq_inc_hz : float;
  vis_channel_bandwidth_hz : float;
  vis_time_start_mjd_utc : float;
  vis_time_inc_sec : float;
  vis_time_average_sec : float;
  vis_phase_centre_ra_deg : float;
  vis_phase_centre_dec_deg : float;
  vis_telescope_lon_deg : float;
  vis_telescope_lat_deg : float;
  vis_telescope_alt_metres : float;
  vis_settings_path : oskar_Mem;
  vis_telescope_path : oskar_Mem;
  vis_settings : oskar_Mem;
  vis_station_x_offset_ecef_metres : oskar_Mem;
  vis_station_y_offset_ecef_metres : oskar_Mem;
  vis_station_z_offset_ecef_metres : oskar_Mem;
  vis_station_x_enu_metres : oskar_Mem;
  vis_station_y_enu_metres : oskar_Mem;
  vis_station_z_enu_metres : oskar_Mem;
  vis_station_lon_deg : oskar_Mem;
  vis_station_lat_deg : oskar_Mem;
  vis_station_orientation_x_deg : oskar_Mem;
  vis_station_orientation_y_deg : oskar_Mem;
  vis_baseline_uu_metres : oskar_Mem;
  vis_baseline_vv_metres : oskar_Mem;
  vis_baseline_ww_metres : oskar_Mem;
  vis_amplitude : oskar_Mem
}.

Section VisCreate.
Context {G : OskarGlobal} {M : MemOps}.

(** A run of [oskar_mem_create] calls sharing the status: one buffer per
    requested [(type, location, length)], the status threaded through. *)
Fixpoint create_all (reqs : list (Z * Z * Z)) (status : Z)
  : list oskar_Mem * Z :=
  match reqs with
  | [] => ([], status)
  | (ty, loc, n) :: reqs =>
    let '(mem, status) := oskar_mem_create ty loc n status in
    let '(mems, status) := create_all reqs status in
    (mem :: mems, status)
  end.

Definition empty_mem : oskar_Mem :=
  {| oskar_mem_type := 0; oskar_mem_location := 0; oskar_mem_data := [] |}.

(** [oskar_Vis* oskar_vis_create(int amp_type, int location,
    int num_channels, int num_times, int num_stations, int* status)].
    The result is the handle ([None] for the null pointer) and the status
    ([None] when the status pointer itself is null).  The code does not
    check the [malloc] of the structure; it is taken to succeed. *)
Definition oskar_vis_create (amp_type location num_channels num_times
    num_stations : Z) (status : option Z) : option oskar_Vis * option Z :=
  match status with
  | None => (None, oskar_set_invalid_argument status)
  | Some status_ =>
    (* Check type. *)
    let type :=
      if oskar_mem_type_is_double amp_type then Some OSKAR_DOUBLE
      else if oskar_mem_type_is_single amp_type then Some OSKAR_SINGLE
      else None in
    match type with
    | None => (None, Some OSKAR_ERR_BAD_DATA_TYPE)
    | Some type =>
      if negb (oskar_mem_type_is_complex amp_type)
      then (None, Some OSKAR_ERR_BAD_DATA_TYPE) else
      (* Check location. *)
      if negb (location =? OSKAR_GPU) && negb (location =? OSKAR_CPU)
      then (None, Some OSKAR_ERR_BAD_LOCATION) else
      (* Set dimensions. *)
      let num_baselines :=
        int_div (int_mul num_stations (int_sub num_stations 1)) 2 in
      let num_amps := int_mul (int_mul num_channels num_times) num_baselines in
      let num_coords := int_mul num_times num_baselines in
      (* Initialise memory. *)
      let '(mems, status_) :=
        create_all
          ([ (OSKAR_CHAR, OSKAR_CPU, 0); (OSKAR_CHAR, OSKAR_CPU, 0);
             (OSKAR_CHAR, OSKAR_CPU, 0) ]
           ++ replicate 10 (type, location, num_stations)
           ++ replicate 3 (type, location, num_coords)
           ++ [ (amp_type, location, num_amps) ]) status_ in
      let m := fun i : nat => nth i mems empty_mem in
      (Some
         {| vis_num_stations := num_stations;
            vis_num_channels := num_channels;
            vis_num_times := num_times;
            vis_num_baselines := num_baselines;
            vis_freq_start_hz := 0;
            vis_freq_inc_hz := 0;
            vis_channel_bandwidth_hz := 0;
            vis_time_start_mjd_utc := 0;
            vis_time_inc_sec := 0;
            vis_time_average_sec := 0;
            vis_phase_centre_ra_deg := 0;
            vis_phase_centre_dec_deg := 0;
            vis_telescope_lon_deg := 0;
            vis_telescope_lat_deg := 0;
            vis_telescope_alt_metres := 0;
            vis_settings_path := m 0%nat;
            vis_telescope_path := m 1%nat;
            vis_settings := m 2%nat;
            vis_station_x_offset_ecef_metres := m 3%nat;
            vis_station_y_offset_ecef_metres := m 4%nat;
            vis_station_z_offset_ecef_metres := m 5%nat;
            vis_station_x_enu_metres := m 6%nat;
            vis_station_y_enu_metres := m 7%nat;
            vis_station_z_enu_metres := m 8%nat;
            vis_station_lon_deg := m 9%nat;
            vis_station_lat_deg := m 10%nat;
            vis_station_orientation_x_deg := m 11%nat;
            vis_station_orientation_y_deg := m 12%nat;
            vis_baseline_uu_metres := m 13%nat;
            vis_baseline_vv_metres := m 14%nat;
            vis_baseline_ww_metres := m 15%nat;
            vis_amplitude := m 16%nat |},
       Some status_)
    end
  end.

End VisCreate.

(** ** Resizing a buffer *)

Section Realloc.
Context {G : OskarGlobal} {M : MemOps}.

(** The element whose bytes are all zero, by element type. *)
Definition elem_zero (ty : Z) : elem :=
  let z := 0%float in
  if oskar_mem_type_is_matrix ty then ElemMatrix (z, z) (z, z) (z, z) (z, z)
  else if oskar_mem_type_is_complex ty then ElemComplex z z
  else if tag_in ty [OSKAR_SINGLE; OSKAR_DOUBLE] then ElemReal z
  else ElemInt 0.

(** Modelled from the spec: [oskar_mem_realloc] is defined in the memory
    module, which is not among the sources.  The TypedBuffer operation
    [resize(buffer, new_length) -> Result] preserves the prefix,
    zero-fills the tail and reallocates if needed; it fails with
    [AllocationFailure], and like every entry point it does nothing when
    the incoming status is non-zero. *)
Definition oskar_mem_realloc (mem : oskar_Mem) (num_elements : nat)
    (status : Z) : oskar_Mem * Z :=
  if negb (status =? 0) then (mem, status) else
  if (num_elements =? oskar_mem_length mem)%nat then (mem, status) else
  if alloc_ok num_elements then
    (oskar_mem_set_data mem
       (take num_elements (oskar_mem_data mem)
        ++ replicate (num_elements - oskar_mem_length mem)
             (elem_zero (oskar_mem_type mem))),
     status)
  else (mem, OSKAR_ERR_MEMORY_ALLOC_FAILURE).

End Realloc.

(** ** The ASCII table loader: oskar_mem_load_ascii.c *)

(** The file system and the line parser: [fopen_read name] is the list of
    lines [oskar_getline] hands out for the file, or [None] when it cannot
    be opened; [oskar_string_to_array_d line n] is the numbers read from
    [line], at most [n] of them. *)
Class AsciiIO : Type := {
  fopen_read : string -> option (list string);
  oskar_string_to_array_d : string -> nat -> list float
}.

(** [row_data[c]]. *)
Definition row_at (row_data : list float) (c : nat) : float :=
  nth c row_data 0%float.

(** What [set_up_handles_and_defaults] leaves behind: the handles set so
    far (the rest of the calloc'ed array is still null), the default row,
    both column counts, its own loop variables and the status. *)
Record setup_state : Type := {
  su_mem_handle : list oskar_Mem;
  su_row_defaults : list float;
  su_num_cols_min : nat;
  su_num_cols_max : nat;
  su_col_start : nat;
  su_buffer_size : nat;
  su_status : Z
}.

Section LoadAscii.
Context {G : OskarGlobal} {M : MemOps} {L : CRuntime} {F : AsciiIO}.

(** [static void store_data(void* data, int type, size_t r, size_t* c,
    const double* row_data, int* status)]: the array, the column counter
    and the status after the call. *)
Definition store_data (data : list elem) (type : Z) (r c : nat)
    (row_data : list float) (status : Z) : list elem * nat * Z :=
  let x := fun k : nat => row_at row_data (c + k) in
  if type =? OSKAR_SINGLE then
    (<[r := ElemReal (to_float (x 0%nat))]> data, (c + 1)%nat, status)
  else if type =? OSKAR_DOUBLE then
    (<[r := ElemReal (x 0%nat)]> data, (c + 1)%nat, status)
  else if type =? OSKAR_SINGLE_COMPLEX then
    (<[r := ElemComplex (to_float (x 0%nat)) (to_float (x 1%nat))]> data,
     (c + 2)%nat, status)
  else if type =? OSKAR_DOUBLE_COMPLEX then
    (<[r := ElemComplex (x 0%nat) (x 1%nat)]> data, (c + 2)%nat, status)
  else if type =? OSKAR_SINGLE_COMPLEX_MATRIX then
    (<[r := ElemMatrix (to_float (x 0%nat), to_float (x 1%nat))
                       (to_float (x 2%nat), to_float (x 3%nat))
                       (to_float (x 4%nat), to_float (x 5%nat))
                       (to_float (x 6%nat), to_float (x 7%nat))]> data,
     (c + 8)%nat, status)
  else if type =? OSKAR_DOUBLE_COMPLEX_MATRIX then
    (<[r := ElemMatrix (x 0%nat, x 1%nat) (x 2%nat, x 3%nat)
                       (x 4%nat, x 5%nat) (x 6%nat, x 7%nat)]> data,
     (c + 8)%nat, status)
  else if type =? OSKAR_INT then
    (<[r := ElemInt (to_int (libm_floor (x 0%nat + 0.5)%float))]> data,
     (c + 1)%nat, status)
  else (data, c, OSKAR_ERR_BAD_DATA_TYPE).

(** [static void set_up_handles_and_defaults(...)]: the loop over the
    [(buffer, default string)] pairs of the argument list; returning the
    state unchanged is the loop's [break]. *)
Fixpoint set_up_handles_and_defaults (args : list (oskar_Mem * string))
    (s : setup_state) : setup_state :=
  match args with
  | [] => s
  | (mem, def) :: args =>
    (* Break if error. *)
    if negb (su_status s =? 0) then s else
    (* Get and store a handle to CPU-accessible memory for the array. *)
    let '(handle, status) :=
      if negb (oskar_mem_location mem =? OSKAR_CPU)
      then oskar_mem_create (oskar_mem_type mem) OSKAR_CPU
             (Z.of_nat (oskar_mem_length mem)) (su_status s)
      else (mem, su_status s) in
    let mem_handle := su_mem_handle s ++ [handle] in
    let stored :=
      {| su_mem_handle := mem_handle;
         su_row_defaults := su_row_defaults s;
         su_num_cols_min := su_num_cols_min s;
         su_num_cols_max := su_num_cols_max s;
         su_col_start := su_col_start s;
         su_buffer_size := su_buffer_size s;
         su_status := status |} in
    (* Break if error. *)
    if negb (status =? 0) then stored else
    (* Determine number of columns needed for this array, and increment
       the maximum column count. *)
    let num_cols_needed := 1%nat in
    let num_cols_needed :=
      if oskar_mem_is_complex handle then (num_cols_needed * 2)%nat
      else num_cols_needed in
    let num_cols_needed :=
      if oskar_mem_is_matrix handle then (num_cols_needed * 4)%nat
      else num_cols_needed in
    let num_cols_max := (su_num_cols_max s + num_cols_needed)%nat in
    (* Resize array to hold row defaults; a failed realloc leaves the
       pointer null. *)
    if negb (alloc_ok num_cols_max) then
      {| su_mem_handle := mem_handle;
         su_row_defaults := [];
         su_num_cols_min := su_num_cols_min s;
         su_num_cols_max := num_cols_max;
         su_col_start := su_col_start s;
         su_buffer_size := su_buffer_size s;
         su_status := OSKAR_ERR_MEMORY_ALLOC_FAILURE |}
    else
    (* Make a copy of the default string from the argument list. *)
    let def_len := (1 + String.length def)%nat in
    let grow := (su_buffer_size s <? def_len)%nat in
    let buffer_size := if grow then def_len else su_buffer_size s in
    if grow && negb (alloc_ok buffer_size) then
      {| su_mem_handle := mem_handle;
         su_row_defaults :=
           su_row_defaults s ++ replicate num_cols_needed 0%float;
         su_num_cols_min := su_num_cols_min s;
         su_num_cols_max := num_cols_max;
         su_col_start := su_col_start s;
         su_buffer_size := buffer_size;
         su_status := OSKAR_ERR_MEMORY_ALLOC_FAILURE |}
    else
    (* Get default value(s) for the array, and store them at the current
       column start, which is where the array ended before it was resized.
       The new slots the parser does not fill are whatever realloc left
       there; they read as 0 here. *)
    let defaults := take num_cols_needed (oskar_string_to_array_d def num_cols_needed) in
    let num_defaults := length defaults in
    let row_defaults :=
      su_row_defaults s
      ++ defaults ++ replicate (num_cols_needed - num_defaults) 0%float in
    (* Sanity checks on defaults. *)
    let num_cols_min :=
      if (num_defaults =? 0)%nat then (su_num_cols_min s + num_cols_needed)%nat
      else su_num_cols_min s in
    let status :=
      if (num_defaults =? 0)%nat then
        if negb (num_cols_min =? num_cols_max)%nat
        then OSKAR_ERR_DIMENSION_MISMATCH else status
      else if negb (num_defaults =? num_cols_needed)%nat
           then OSKAR_ERR_TYPE_MISMATCH else status in
    set_up_handles_and_defaults args
      {| su_mem_handle := mem_handle;
         su_row_defaults := row_defaults;
         su_num_cols_min := num_cols_min;
         su_num_cols_max := num_cols_max;
         su_col_start := (su_col_start s + num_cols_needed)%nat;
         su_buffer_size := buffer_size;
         su_status := status |}
  end.

(** The loop over the arrays for one accepted row: resize when the
    array is not big enough, then store.  Leaving the remaining handles
    untouched is the loop's [break]. *)
Fixpoint store_row (mem_handle : list oskar_Mem) (row_index col_index : nat)
    (row_data : list float) (status : Z) : list oskar_Mem * nat * Z :=
  match mem_handle with
  | [] => ([], col_index, status)
  | handle :: rest =>
    (* Resize the array if it isn't big enough to hold the new data. *)
    let '(handle, status, stop) :=
      if (oskar_mem_length handle <=? row_index)%nat then
        let '(handle, status) :=
          oskar_mem_realloc handle (row_index + 100) status in
        (handle, status, negb (status =? 0))
      else (handle, status, false) in
    if stop then (handle :: rest, col_index, status) else
    (* Store data. *)
    let '(data, col_index, status) :=
      store_data (oskar_mem_data handle) (oskar_mem_type handle)
        row_index col_index row_data status in
    let '(rest, col_index, status) :=
      store_row rest row_index col_index row_data status in
    (oskar_mem_set_data handle data :: rest, col_index, status)
  end.

(** The [while] loop over the lines of the file. *)
Fixpoint load_lines (num_cols_min num_cols_max : nat)
    (row_defaults : list float) (lines : list string)
    (mem_handle : list oskar_Mem) (row_index : nat) (status : Z)
  : list oskar_Mem * nat * Z :=
  match lines with
  | [] => (mem_handle, row_index, status)
  | line :: lines =>
    (* Break if error. *)
    if negb (status =? 0) then (mem_handle, row_index, status) else
    (* Get the row's data from the file, skipping the row if there aren't
       enough columns to read. *)
    let read := take num_cols_max (oskar_string_to_array_d line num_cols_max) in
    let num_cols_read := length read in
    if (num_cols_read <? num_cols_min)%nat then
      load_lines num_cols_min num_cols_max row_defaults lines
        mem_handle row_index status
    else
      (* Copy defaults to fill out any missing row data as needed. *)
      let row_data :=
        read ++ drop num_cols_read (take num_cols_max row_defaults) in
      (* Loop over arrays passed to this function. *)
      let '(mem_handle, _, status) :=
        store_row mem_handle row_index 0 row_data status in
      (* Increment row counter. *)
      load_lines num_cols_min num_cols_max row_defaults lines
        mem_handle (S row_index) status
  end.

(** Resize all arrays to their actual final length. *)
Fixpoint resize_all (mem_handle : list oskar_Mem) (row_index : nat)
    (status : Z) : list oskar_Mem * Z :=
  match mem_handle with
  | [] => ([], status)
  | handle :: rest =>
    let '(handle, status) := oskar_mem_realloc handle row_index status in
    let '(rest, status) := resize_all rest row_index status in
    (handle :: rest, status)
  end.

(** The last loop: an array in CPU memory was loaded in place, so its
    handle is the array; any other array receives a copy of its handle,
    which is then freed.  A handle that was never set is still null; the
    status is non-zero then and the buffer calls leave the array alone. *)
Fixpoint copy_back (mems : list oskar_Mem) (mem_handle : list oskar_Mem)
    (status : Z) : list oskar_Mem * Z :=
  match mems with
  | [] => ([], status)
  | mem :: mems =>
    match mem_handle with
    | [] => (mem :: mems, status)
    | handle :: rest =>
      let '(mem, status) :=
        if negb (oskar_mem_location mem =? OSKAR_CPU) then
          let '(mem, status) := oskar_mem_copy mem handle status in
          (mem, oskar_mem_free handle status)
        else (handle, status) in
      let '(mems, status) := copy_back mems rest status in
      (mem :: mems, status)
    end
  end.

(** [size_t oskar_mem_load_ascii(const char* filename, size_t num_mem,
    int* status, ...)].  [args] is the variable argument list, one
    [(buffer, default string)] pair per array, of which the call reads the
    first [num_mem]; [filename] and [status] are pointers that may be null.
    The result is the returned row count, the buffers of the argument list
    after the call, and the status. *)
Definition oskar_mem_load_ascii (filename : option string) (num_mem : nat)
    (status : option Z) (args : list (oskar_Mem * string))
  : nat * list oskar_Mem * option Z :=
  let mems := map fst args in
  match filename, num_mem, status with
  | Some filename_, S _, Some status_ =>
    (* Check if safe to proceed. *)
    if negb (status_ =? 0) then (0%nat, mems, status) else
    (* Open the file. *)
    match fopen_read filename_ with
    | None => (0%nat, mems, Some OSKAR_ERR_FILE_IO)
    | Some lines =>
      (* Allocate array of handles to data in CPU memory. *)
      let have_handles := alloc_ok num_mem in
      let status_ :=
        if have_handles then status_ else OSKAR_ERR_MEMORY_ALLOC_FAILURE in
      (* Set up handles and default row data, and find the minimum and
         maximum number of columns. *)
      let s :=
        set_up_handles_and_defaults (take num_mem args)
          {| su_mem_handle := []; su_row_defaults := [];
             su_num_cols_min := 0; su_num_cols_max := 0;
             su_col_start := 0; su_buffer_size := 0;
             su_status := status_ |} in
      (* Allocate an array to hold numeric data for one row of the file. *)
      let status_ :=
        if alloc_ok (su_num_cols_max s) then su_status s
        else OSKAR_ERR_MEMORY_ALLOC_FAILURE in
      (* Loop over lines in the file. *)
      let '(mem_handle, row_index, status_) :=
        load_lines (su_num_cols_min s) (su_num_cols_max s)
          (su_row_defaults s) lines (su_mem_handle s) 0 status_ in
      (* Ensure that the handle array exists. *)
      if have_handles then
        let '(mem_handle, status_) := resize_all mem_handle row_index status_ in
        let '(loaded, status_) := copy_back (take num_mem mems) mem_handle status_ in
        (row_index, loaded ++ drop num_mem mems, Some status_)
      else (row_index, mems, Some status_)
    end
  | _, _, _ =>
    (* Check all inputs. *)
    (0%nat, mems, oskar_set_invalid_argument status)
  end.

End LoadAscii.

(** ** Baseline geometry *)

Local Open Scope nat_scope.

(** Modelled from the spec: the canonical enumeration of Baseline Geometry
    (the loop nest itself is in the conversion routine, whose definition is
    not among the sources): for i = 0..N-2, for j = i+1..N-1. *)
Definition baseline_row (N i : nat) : list (nat * nat) :=
  map (pair i) (seq (S i) (N - S i)).

(** Modelled from the spec: [n] consecutive rows of the canonical
    enumeration, from row [a] on. *)
Definition baseline_rows (N a n : nat) : list (nat * nat) :=
  flat_map (baseline_row N) (seq a n).

(** Modelled from the spec: the whole canonical enumeration, rows 0..N-2. *)
Definition baseline_pairs (N : nat) : list (nat * nat) :=
  baseline_rows N 0 (N - 1).

(** The number of pairs the enumeration has produced before it reaches row
    [i], and the position of the pair [(i, j)] in it. *)
Definition baseline_row_start (N i : nat) : nat := i * (2 * N - i - 1) / 2.
Definition baseline_index (N i j : nat) : nat :=
  baseline_row_start N i + (j - i - 1).

Section StationToBaseline.
Context {L : CRuntime}.

(** One pass through the body of the inner loop: baseline [b] takes
    station [i] minus station [j] in each coordinate, and [b] moves on.
    C leaves a store past the end of an output array undefined; the list
    update drops it. *)
Definition baseline_uvw_step (sub : float -> float -> float)
    (u v w : list float)
    (st : nat * (list float * list float * list float)) (p : nat * nat)
  : nat * (list float * list float * list float) :=
  let '(b, (uu, vv, ww)) := st in
  let '(i, j) := p in
  (S b, (<[b := sub (row_at u i) (row_at u j)]> uu,
         <[b := sub (row_at v i) (row_at v j)]> vv,
         <[b := sub (row_at w i) (row_at w j)]> ww)).

(** Modelled from the spec: the definitions of
    [oskar_convert_station_uvw_to_baseline_uvw_f] and [_d] are not among
    the sources (their header is).  The loop nest is the canonical
    enumeration, for i = 0..N-2, for j = i+1..N-1, with a running baseline
    index, and the baseline (u,v,w) of the pair (i,j) is station i minus
    station j. *)
Definition convert_station_uvw_to_baseline_uvw (sub : float -> float -> float)
    (num_stations : Z) (u v w uu vv ww : list float)
  : list float * list float * list float :=
  let N := Z.to_nat num_stations in
  snd (fold_left
         (fun st i =>
            fold_left (fun st j => baseline_uvw_step sub u v w st (i, j))
              (seq (S i) (N - S i)) st)
         (seq 0 (N - 1)) (0, (uu, vv, ww))).

(** Modelled from the spec: the double-precision routine, see
    [convert_station_uvw_to_baseline_uvw]. *)
Definition oskar_convert_station_uvw_to_baseline_uvw_d :=
  convert_station_uvw_to_baseline_uvw PrimFloat.sub.

(** Modelled from the spec: the single-precision routine, see
    [convert_station_uvw_to_baseline_uvw]; the difference of two [float]s
    is the [float] nearest to their exact difference. *)
Definition oskar_convert_station_uvw_to_baseline_uvw_f :=
  convert_station_uvw_to_baseline_uvw (fun a b => to_float (a - b)%float).

End StationToBaseline.

(** The stores of one coordinate over a run of pairs, from baseline [b] on. *)
Fixpoint write_run {A : Type} (f : A -> float) (b : nat) (ps : list A)
    (arr : list float) : list float :=
  match ps with
  | [] => arr
  | p :: ps => write_run f (S b) ps (<[b := f p]> arr)
  end.

Local Close Scope nat_scope.

(** ** The station functions: oskar_station_save_orientation.c,
       oskar_station_override_element_orientations.c *)

(** The members of [oskar_Station] the two files read or write, directly or
    through the accessors of [oskar_station_accessors.c]: the element
    count, the two element-orientation arrays in CPU memory, and the array
    of child stations ([None] is the null pointer).  The structure has more
    members, which these files never name. *)
#[local] Unset Elimination Schemes.
Inductive oskar_Station : Type :=
  Station (num_elements : Z)
          (element_orientation_x_rad_cpu element_orientation_y_rad_cpu : oskar_Mem)
          (child : option (list oskar_Station)).
#[local] Set Elimination Schemes.

(** [int oskar_station_num_elements(const oskar_Station* model)]. *)
Definition oskar_station_num_elements (model : oskar_Station) : Z :=
  match model with Station n _ _ _ => n end.

(** [const oskar_Mem* oskar_station_element_orientation_x_rad_cpu_const(...)]. *)
Definition oskar_station_element_orientation_x_rad_cpu (model : oskar_Station)
  : oskar_Mem :=
  match model with Station _ x _ _ => x end.

(** [const oskar_Mem* oskar_station_element_orientation_y_rad_cpu_const(...)]. *)
Definition oskar_station_element_orientation_y_rad_cpu (model : oskar_Station)
  : oskar_Mem :=
  match model with Station _ _ y _ => y end.

Definition station_child (model : oskar_Station) : option (list oskar_Station) :=
  match model with Station _ _ _ c => c end.

(** [int oskar_station_has_child(const oskar_Station* model)]:
    [model->child ? 1 : 0]. *)
Definition oskar_station_has_child (model : oskar_Station) : Z :=
  match station_child model with Some _ => 1 | None => 0 end.

(** [oskar_Station* oskar_station_child(oskar_Station* model, int i)]:
    [model->child[i]]; [None] where C reads past the array. *)
Definition oskar_station_child (model : oskar_Station) (i : nat)
  : option oskar_Station :=
  match station_child model with Some cs => cs !! i | None => None end.




(** Writing a text file: [fopen_write name] tells whether
    [fopen(name, "w")] succeeds, and [fprintf_orientation a b] is the line
    [fprintf(file, "% 14.6f % 14.6f\n", a, b)] prints. *)
Class TextOut : Type := {
  fopen_write : string -> bool;
  fprintf_orientation : float -> float -> string
}.

Section StationOrientation.
Context {G : OskarGlobal} {L : CRuntime} {T : TextOut}.


(** The loop over the elements at the last level: [d[i] += delta], with
    [delta] the orientation error times a fresh Gaussian deviate. *)
Definition override_orientation_step (orientation_error_rad : float)
    (st : list elem * rand_state) (i : nat) : list elem * rand_state :=
  let '(d, rng) := st in
  (* Generate random number from Gaussian distribution. *)
  let '(g, _, rng) := oskar_random_gaussian rng in
  let delta := (orientation_error_rad * g)%float in
  (* Set the new angle. *)
  (<[i := ElemReal (elem_real_at d i + delta)]> d, rng).

(** The loop over the children, [for (i = 0; i < s->num_elements; ++i)]
    with the recursive call on [oskar_station_child(s, i)] as its body:
    it visits the first [num_elements] children, the status and the
    generator threaded through. *)
Definition override_children
    (recurse : oskar_Station -> Z -> rand_state -> oskar_Station * Z * rand_state)
  : list oskar_Station -> nat -> Z -> rand_state
    -> list oskar_Station * Z * rand_state :=
  fix loop (cs : list oskar_Station) (n : nat) (status : Z) (rng : rand_state)
      {struct cs} :=
    match cs, n with
    | c :: cs, S n =>
      let '(c, status, rng) := recurse c status rng in
      let '(cs, status, rng) := loop cs n status rng in
      (c :: cs, status, rng)
    | _, _ => (cs, status, rng)
    end.

(** The call on a station that is there, with a status pointer that is
    there: the body of the function past its input check.  The recursive
    calls of the C function go to child stations with the same status
    pointer, so they are calls of this body.  The element loop writes
    [d[i]] for every [i] below [num_elements]; C leaves a write past the
    end of the array undefined, and here it leaves the array as it is. *)
Fixpoint override_element_orientations_at (s : oskar_Station) (x_pol : Z)
    (orientation_error_rad : float) (status : Z) (rng : rand_state)
    {struct s} : oskar_Station * Z * rand_state :=
  (* Check if safe to proceed. *)
  if negb (status =? 0) then (s, status, rng) else
  match s with
  | Station num_elements x y (Some children) =>
    (* Recursive call to find the last level (i.e. the element data). *)
    let '(children, status, rng) :=
      override_children
        (fun c => override_element_orientations_at c x_pol orientation_error_rad)
        children (Z.to_nat num_elements) status rng in
    (Station num_elements x y (Some children), status, rng)
  | Station num_elements x y None =>
    (* Override element data at last level. *)
    let mem := if negb (x_pol =? 0) then x else y in
    let '(d, status) := oskar_mem_accessor OSKAR_DOUBLE mem status in
    let '(d, rng) :=
      fold_left (override_orientation_step orientation_error_rad)
        (seq 0 (Z.to_nat num_elements)) (d, rng) in
    let mem := oskar_mem_set_data mem d in
    (if negb (x_pol =? 0) then Station num_elements mem y None
     else Station num_elements x mem None,
     status, rng)
  end.

(** [void oskar_station_override_element_orientations(oskar_Station* s,
    int x_pol, double orientation_error_rad, int* status)]. *)
Definition oskar_station_override_element_orientations
    (s : option oskar_Station) (x_pol : Z) (orientation_error_rad : float)
    (status : option Z) (rng : rand_state)
  : option oskar_Station * option Z * rand_state :=
  match s, status with
  | Some s_, Some status_ =>
    let '(s_, status_, rng) :=
      override_element_orientations_at s_ x_pol orientation_error_rad
        status_ rng in
    (Some s_, Some status_, rng)
  | _, _ =>
    (* Check all inputs. *)
    (s, oskar_set_invalid_argument status, rng)
  end.

End StationOrientation.

(** ** The double-range setting: oskar_DoubleRange.cpp *)

(** [DBL_MAX] and [DBL_MIN] of [<cfloat>] for binary64. *)
Definition DBL_MAX : float := 0x1.fffffffffffffp+1023%float.
Definition DBL_MIN : float := 0x1p-1022%float.

(** The members of [class DoubleRange]: the print format and the numbers
    [min_], [max_], [value_], [default_]. *)
Inductive Format : Type := AUTO | EXPONENT.

Record DoubleRange : Type := {
  format_ : Format;
  min_ : float;
  max_ : float;
  value_ : float;
  default_ : float
}.

(** The string utilities of [oskar_settings_utility_string.hpp], which is
    not among the sources: the split of a parameter CSV string,
    the conversion of a string to a [double] with its [bool* ok] flag (the
    flag goes in and comes out), and the conversion of a [double] to a
    string in format ['g'] or ['e']. *)
Class SettingsUtility : Type := {
  oskar_settings_utility_string_get_type_params : string -> list string;
  oskar_settings_utility_string_to_double : string -> bool -> float * bool;
  oskar_settings_utility_double_to_string_2 : float -> Ascii.ascii -> string
}.

(** [s.find_first_of('e') != std::string::npos]. *)
Fixpoint has_char_e (s : string) : bool :=
  match s with
  | EmptyString => false
  | String c s => Ascii.eqb c "e"%char || has_char_e s
  end.

Section DoubleRangeMethods.
Context {U : SettingsUtility}.

(** [DoubleRange::DoubleRange()]. *)
Definition DoubleRange_new : DoubleRange :=
  {| format_ := AUTO; min_ := (- DBL_MAX)%float; max_ := DBL_MAX;
     value_ := 0%float; default_ := 0%float |}.

(** [bool DoubleRange::init(const std::string& s)]: the returned flag and
    the object after the call. *)
Definition DoubleRange_init (s : string) : bool * DoubleRange :=
  let reset := DoubleRange_new in
  let ok := true in
  let p := oskar_settings_utility_string_get_type_params s in
  match p with
  | [] => (false, reset)
  | [p0] =>
    let '(min, ok) :=
      if String.eqb p0 "MIN" then ((- DBL_MAX)%float, ok)
      else oskar_settings_utility_string_to_double p0 ok in
    (ok, {| format_ := AUTO; min_ := min; max_ := DBL_MAX;
            value_ := 0%float; default_ := 0%float |})
  | [p0; p1] =>
    let '(min, ok) :=
      if String.eqb p0 "MIN" then ((- DBL_MAX)%float, ok)
      else oskar_settings_utility_string_to_double p0 ok in
    let '(max, ok) :=
      if String.eqb p1 "MAX" then (DBL_MAX, ok)
      else oskar_settings_utility_string_to_double p1 ok in
    (ok, {| format_ := AUTO; min_ := min; max_ := max;
            value_ := 0%float; default_ := 0%float |})
  | _ => (false, reset)
  end.

(** [bool DoubleRange::from_string_(double& value, const std::string& s)
    const]: the returned flag and the number left in [value], given the
    number that was there. *)
Definition DoubleRange_from_string_ (r : DoubleRange) (value : float)
    (s : string) : bool * float :=
  let ok := true in
  let '(d, ok) := oskar_settings_utility_string_to_double s ok in
  if negb ok then (false, value) else
  if ((min_ r <=? d) && (d <=? max_ r))%float then (true, d)
  else if (d <? min_ r)%float then (false, min_ r)
  else if (max_ r <? d)%float then (false, max_ r)
  else (false, value).

Definition DoubleRange_format_of (s : string) : Format :=
  if has_char_e s then EXPONENT else AUTO.

(** [bool DoubleRange::set_default(const std::string& s)]. *)
Definition DoubleRange_set_default (r : DoubleRange) (s : string)
  : bool * DoubleRange :=
  let format := DoubleRange_format_of s in
  let '(ok, default) := DoubleRange_from_string_ r (default_ r) s in
  (ok, {| format_ := format; min_ := min_ r; max_ := max_ r;
          value_ := if ok then default else value_ r;
          default_ := default |}).

(** [bool DoubleRange::set_value(const std::string& s)]. *)
Definition DoubleRange_set_value (r : DoubleRange) (s : string)
  : bool * DoubleRange :=
  let format := DoubleRange_format_of s in
  let '(ok, value) := DoubleRange_from_string_ r (value_ r) s in
  (ok, {| format_ := format; min_ := min_ r; max_ := max_ r;
          value_ := value; default_ := default_ r |}).

Definition DoubleRange_format_char (r : DoubleRange) : Ascii.ascii :=
  match format_ r with AUTO => "g"%char | EXPONENT => "e"%char end.

(** [std::string DoubleRange::get_default() const]. *)
Definition DoubleRange_get_default (r : DoubleRange) : string :=
  oskar_settings_utility_double_to_string_2 (default_ r)
    (DoubleRange_format_char r).

(** [std::string DoubleRange::get_value() const]. *)
Definition DoubleRange_get_value (r : DoubleRange) : string :=
  oskar_settings_utility_double_to_string_2 (value_ r)
    (DoubleRange_format_char r).

(** [bool DoubleRange::is_default() const]. *)
Definition DoubleRange_is_default (r : DoubleRange) : bool :=
  (abs (default_ r - value_ r) <? DBL_MIN)%float.

(** [bool DoubleRange::operator==(const DoubleRange& other) const]. *)
Definition DoubleRange_eq (r other : DoubleRange) : bool :=
  (abs (value_ r - value_ other) <? DBL_MIN)%float.

(** [bool DoubleRange::operator>(const DoubleRange& other) const]. *)
Definition DoubleRange_gt (r other : DoubleRange) : bool :=
  (value_ other <? value_ r)%float.

End DoubleRangeMethods.

(** ** Vocabulary of the properties *)

(** A polarisation fraction after both clamps of the override is neither
    above 1 nor below 0 (a NaN stays a NaN). *)
Definition clamped (pol_fraction : float) : Prop :=
  (1 <? pol_fraction)%float = false /\ (pol_fraction <? 0)%float = false.

(** Two buffers with the same element type and location. *)
Definition same_tags (before after : oskar_Mem) : Prop :=
  oskar_mem_type after = oskar_mem_type before
  /\ oskar_mem_location after = oskar_mem_location before.

(** Two buffers that differ in their array only, of the same length. *)
Definition same_shape (before after : oskar_Mem) : Prop :=
  oskar_mem_type after = oskar_mem_type before
  /\ oskar_mem_location after = oskar_mem_location before
  /\ oskar_mem_length after = oskar_mem_length before.

Section LoaderVocabulary.
Context {G : OskarGlobal} {F : AsciiIO}.

(** The number of columns [set_up_handles_and_defaults] counts for an array
    of element type [ty]. *)
Definition columns_of_type (ty : Z) : nat :=
  ((if oskar_mem_type_is_complex ty then 2 else 1)
   * (if oskar_mem_type_is_matrix ty then 4 else 1))%nat.

(** The element types [store_data] has a case for. *)
Definition loadable_types : list Z :=
  [ OSKAR_SINGLE; OSKAR_DOUBLE; OSKAR_SINGLE_COMPLEX; OSKAR_DOUBLE_COMPLEX;
    OSKAR_SINGLE_COMPLEX_MATRIX; OSKAR_DOUBLE_COMPLEX_MATRIX; OSKAR_INT ].

(** The number of default values the set-up reads for one argument pair,
    and the total number of columns of a run of pairs. *)
Definition defaults_read (arg : oskar_Mem * string) : nat :=
  let n := columns_of_type (oskar_mem_type arg.1) in
  length (take n (oskar_string_to_array_d arg.2 n)).

Definition columns_of_args (args : list (oskar_Mem * string)) : nat :=
  foldr (fun arg n => (columns_of_type (oskar_mem_type arg.1) + n)%nat) 0%nat args.

Definition on_cpu (arg : oskar_Mem * string) : Prop :=
  oskar_mem_location arg.1 = OSKAR_CPU.

End LoaderVocabulary.

(** A number lies in the range of the setting: [min_ <= d && d <= max_]. *)
Definition DoubleRange_in_range (r : DoubleRange) (d : float) : Prop :=
  (min_ r <=? d)%float = true /\ (d <=? max_ r)%float = true.

(** The range is not empty and holds the value and the default. *)
Definition DoubleRange_valid (r : DoubleRange) : Prop :=
  (min_ r <=? max_ r)%float = true
  /\ DoubleRange_in_range r (value_ r)
  /\ DoubleRange_in_range r (default_ r).

(** The array of element orientations that [x_pol] selects:
    [x_pol ? s->element_orientation_x_rad_cpu :
    s->element_orientation_y_rad_cpu]. *)
Definition orientation_array (x_pol : Z) (s : oskar_Station) : oskar_Mem :=
  if negb (x_pol =? 0) then oskar_station_element_orientation_x_rad_cpu s
  else oskar_station_element_orientation_y_rad_cpu s.

(** What a call for polarisation [x_pol] may change in a station tree: at
    a station without children, the contents of the array that [x_pol]
    selects, and nothing else; at a station with children, nothing but
    the children, one for one. *)
#[local] Unset Elimination Schemes.
Inductive orientation_frame (x_pol : Z) : oskar_Station -> oskar_Station -> Prop :=
| orientation_frame_leaf (n : Z) (x y x' y' : oskar_Mem) :
    same_shape x x' -> same_shape y y' ->
    (x_pol <> 0 -> y' = y) -> (x_pol = 0 -> x' = x) ->
    orientation_frame x_pol (Station n x y None) (Station n x' y' None)
| orientation_frame_node (n : Z) (x y : oskar_Mem) (cs cs' : list oskar_Station) :
    Forall2 (orientation_frame x_pol) cs cs' ->
    orientation_frame x_pol (Station n x y (Some cs)) (Station n x y (Some cs')).
#[local] Set Elimination Schemes.

Section GaussianStream.
Context {G : OskarGlobal} {L : CRuntime}.

(** The state of the generator after [n] calls of
    [oskar_random_gaussian], and the first number of the pair the call
    number [i] (from 0) hands out. *)
Fixpoint rand_state_after (rng : rand_state) (n : nat) : rand_state :=
  match n with
  | O => rng
  | S n => (oskar_random_gaussian (rand_state_after rng n)).2
  end.

Definition gaussian_deviate (rng : rand_state) (i : nat) : float :=
  (oskar_random_gaussian (rand_state_after rng i)).1.1.

(** What one call on a station does, as far as the loop over the
    children needs it. *)
Definition orientation_call_spec (x_pol : Z)
    (recurse : oskar_Station -> Z -> rand_state -> oskar_Station * Z * rand_state)
    (s : oskar_Station) : Prop :=
  forall (status : Z) (rng : rand_state),
    orientation_frame x_pol s (recurse s status rng).1.1
    /\ (status <> 0 -> recurse s status rng = (s, status, rng))
    /\ ((recurse s status rng).1.2 = status
        \/ (recurse s status rng).1.2 = OSKAR_ERR_TYPE_MISMATCH).

End GaussianStream.

(** ** Concrete collaborators

    Stand-ins for the routines that live outside the sources, to run the
    definitions above on concrete calls. *)

Definition sample_kernels : AutoPowerKernels := {|
  oskar_evaluate_auto_power_f := fun _ jones _ => jones;
  oskar_evaluate_auto_power_d := fun _ jones _ => jones;
  oskar_evaluate_auto_power_scalar_f := fun _ jones _ => jones;
  oskar_evaluate_auto_power_scalar_d := fun _ jones _ => jones;
  oskar_evaluate_auto_power_cuda_f := fun _ jones _ => jones;
  oskar_evaluate_auto_power_cuda_d := fun _ jones _ => jones;
  oskar_evaluate_auto_power_scalar_cuda_f := fun _ jones _ => jones;
  oskar_evaluate_auto_power_scalar_cuda_d := fun _ jones _ => jones;
  oskar_device_check_error := fun status => status
|}.

Definition sample_runtime : CRuntime := {|
  rand_state := Z;
  srand := fun seed => seed;
  oskar_random_gaussian := fun s => (0.25%float, 0.5%float, s + 1);
  libm_cos := fun x => (1 - x * x / 2)%float;
  libm_sin := fun x => x;
  libm_floor := fun x => x;
  to_float := fun x => x;
  to_int := fun _ => 0
|}.

Definition sample_mem_ops : MemOps := {|
  oskar_mem_create := fun ty loc n status =>
    ({| oskar_mem_type := ty; oskar_mem_location := loc;
        oskar_mem_data :=
          if status =? 0 then replicate (Z.to_nat n) (ElemInt 0) else [] |},
     status);
  oskar_mem_copy := fun dst src status =>
    (if status =? 0 then oskar_mem_set_data dst (oskar_mem_data src) else dst,
     status);
  oskar_mem_free := fun _ status => status;
  alloc_ok := fun n => (n <? 1000)%nat
|}.

Definition sample_io : AsciiIO := {|
  fopen_read := fun name =>
    if String.eqb name "sources.txt" then Some ["1 2"; "3 4"]%string else None;
  oskar_string_to_array_d := fun line n =>
    take n (if String.eqb line "1 2" then [1%float; 2%float]
            else if String.eqb line "3 4" then [3%float; 4%float] else [])
|}.

Definition sample_text_out : TextOut := {|
  fopen_write := fun name => negb (String.eqb name "");
  fprintf_orientation := fun a b =>
    if (a <? b)%float then "lt"%string else "ge"%string
|}.

Definition sample_settings_utility : SettingsUtility := {|
  oskar_settings_utility_string_get_type_params := fun s =>
    if String.eqb s "" then []
    else if String.eqb s "1,5" then ["1"; "5"]%string
    else [s];
  oskar_settings_utility_string_to_double := fun s _ =>
    if String.eqb s "1" then (1%float, true)
    else if String.eqb s "3" then (3%float, true)
    else if String.eqb s "5" then (5%float, true)
    else if String.eqb s "9e0" then (9%float, true)
    else if String.eqb s "nan" then (nan, true)
    else (0%float, false);
  oskar_settings_utility_double_to_string_2 := fun x fmt =>
    String fmt (if (x <? 4)%float then "small" else "large")
|}.

Definition sample_mem (ty loc : Z) (data : list elem) : oskar_Mem :=
  {| oskar_mem_type := ty; oskar_mem_location := loc; oskar_mem_data := data |}.


Section SampleData.
#[local] Existing Instance sample_global.

Definition sample_sky : oskar_Sky :=
  let column := sample_mem OSKAR_DOUBLE OSKAR_CPU
                  [ElemReal 1%float; ElemReal 2%float] in
  {| oskar_sky_precision := OSKAR_DOUBLE;
     oskar_sky_mem_location := OSKAR_CPU;
     oskar_sky_num_sources := 2;
     oskar_sky_I := column;
     oskar_sky_Q := column;
     oskar_sky_U := column;
     oskar_sky_other_arrays := [column; column] |}.

Definition jones_sc_cpu : oskar_Mem :=
  sample_mem OSKAR_SINGLE_COMPLEX OSKAR_CPU [ElemComplex 1 0; ElemComplex 0 1].
Definition out_dc_cpu : oskar_Mem :=
  sample_mem OSKAR_DOUBLE_COMPLEX OSKAR_CPU [ElemComplex 5 5].
Definition out_dc_gpu : oskar_Mem :=
  sample_mem OSKAR_DOUBLE_COMPLEX OSKAR_GPU [ElemComplex 5 5].
Definition out_sc_gpu : oskar_Mem :=
  sample_mem OSKAR_SINGLE_COMPLEX OSKAR_GPU [ElemComplex 5 5].
Definition jones_int_gpu : oskar_Mem :=
  sample_mem OSKAR_INT OSKAR_GPU [ElemInt 1; ElemInt 2].
Definition out_int_gpu : oskar_Mem :=
  sample_mem OSKAR_INT OSKAR_GPU [ElemInt 7].
Definition jones_int_cpu : oskar_Mem :=
  sample_mem OSKAR_INT OSKAR_CPU [ElemInt 1; ElemInt 2].
Definition out_int_cpu : oskar_Mem :=
  sample_mem OSKAR_INT OSKAR_CPU [ElemInt 7].

Definition two_rows : oskar_Mem :=
  sample_mem OSKAR_DOUBLE OSKAR_CPU [ElemReal 7; ElemReal 9].

Definition station_u : list float := [0; 100; 200]%float.
Definition station_v : list float := [0; 10; 30]%float.
Definition station_w : list float := [1; 2; 4]%float.
Definition baseline_zeros : list float := [0; 0; 0]%float.

Definition orientation_x : oskar_Mem :=
  sample_mem OSKAR_DOUBLE OSKAR_CPU [ElemReal 1; ElemReal 2; ElemReal 3].
Definition orientation_y : oskar_Mem :=
  sample_mem OSKAR_DOUBLE OSKAR_CPU [ElemReal 4; ElemReal 5; ElemReal 6].
Definition leaf_station : oskar_Station :=
  Station 3 orientation_x orientation_y None.
Definition parent_station : oskar_Station :=
  Station 2 orientation_x orientation_y (Some [leaf_station; leaf_station]).
Definition range_1_5 : DoubleRange :=
  {| format_ := AUTO; min_ := 1; max_ := 5; value_ := 0; default_ := 0 |}.
Definition range_1_5_at_3 : DoubleRange :=
  {| format_ := AUTO; min_ := 1; max_ := 5; value_ := 3; default_ := 3 |}.

Definition out_sc_cpu : oskar_Mem :=
  sample_mem OSKAR_SINGLE_COMPLEX OSKAR_CPU [ElemComplex 5 5].
Definition jones_sc_gpu : oskar_Mem :=
  sample_mem OSKAR_SINGLE_COMPLEX OSKAR_GPU [ElemComplex 1 0; ElemComplex 0 1].
Definition jones_sc_elsewhere : oskar_Mem :=
  sample_mem OSKAR_SINGLE_COMPLEX 7 [ElemComplex 1 0; ElemComplex 0 1].
Definition out_sc_elsewhere : oskar_Mem :=
  sample_mem OSKAR_SINGLE_COMPLEX 7 [ElemComplex 5 5].

Definition sample_sky_at (precision location : Z) : oskar_Sky :=
  {| oskar_sky_precision := precision;
     oskar_sky_mem_location := location;
     oskar_sky_num_sources := oskar_sky_num_sources sample_sky;
     oskar_sky_I := oskar_sky_I sample_sky;
     oskar_sky_Q := oskar_sky_Q sample_sky;
     oskar_sky_U := oskar_sky_U sample_sky;
     oskar_sky_other_arrays := oskar_sky_other_arrays sample_sky |}.

Definition empty_columns : list (oskar_Mem * string) :=
  [(sample_mem OSKAR_DOUBLE OSKAR_CPU [], EmptyString);
   (sample_mem OSKAR_DOUBLE OSKAR_CPU [], EmptyString)].

End SampleData.

(** * Properties *)

(** ** The enumerators *)

Section GlobalFacts.
Context {G : OskarGlobal}.

Lemma error_code_nonzero (e : Z) : e ∈ oskar_error_codes -> e <> 0.
Proof.
  intros He. pose proof oskar_errors_nonzero as H.
  rewrite Forall_forall in H. exact (H e He).
Qed.

Lemma type_mismatch_is_not_location_mismatch :
  OSKAR_ERR_TYPE_MISMATCH <> OSKAR_ERR_LOCATION_MISMATCH.
Proof.
  pose proof oskar_errors_distinct as H. unfold oskar_error_codes in H.
  intros E. rewrite E in H.
  repeat (apply NoDup_cons in H; destruct H as [? H]).
  set_solver.
Qed.

Lemma alloc_failure_nonzero : OSKAR_ERR_MEMORY_ALLOC_FAILURE <> 0.
Proof. apply error_code_nonzero. unfold oskar_error_codes. set_solver. Qed.

End GlobalFacts.

(** ** oskar_evaluate_auto_power *)

Section AutoPowerFacts.
Context {G : OskarGlobal} {K : AutoPowerKernels}.
Implicit Types (jones out : oskar_Mem) (status num_sources : Z).

(** The entry guard: nothing happens on a non-zero incoming status. *)
Lemma auto_power_unsafe have_cuda num_sources jones out status :
  status <> 0 ->
  oskar_evaluate_auto_power have_cuda num_sources jones out status
  = (out, status).
Proof.
  intros Hs. unfold oskar_evaluate_auto_power.
  destruct (Z.eqb_spec status 0); [contradiction | reflexivity].
Qed.

Lemma auto_power_type_mismatch have_cuda num_sources jones out :
  oskar_mem_type out <> oskar_mem_type jones ->
  oskar_evaluate_auto_power have_cuda num_sources jones out 0
  = (out, OSKAR_ERR_TYPE_MISMATCH).
Proof.
  intros Ht. unfold oskar_evaluate_auto_power. simpl.
  destruct (Z.eqb_spec (oskar_mem_type jones) (oskar_mem_type out));
    [congruence | reflexivity].
Qed.

Lemma auto_power_location_mismatch have_cuda num_sources jones out :
  oskar_mem_type out = oskar_mem_type jones ->
  oskar_mem_location out <> oskar_mem_location jones ->
  oskar_evaluate_auto_power have_cuda num_sources jones out 0
  = (out, OSKAR_ERR_LOCATION_MISMATCH).
Proof.
  intros Ht Hl. unfold oskar_evaluate_auto_power. simpl.
  destruct (Z.eqb_spec (oskar_mem_type jones) (oskar_mem_type out));
    [simpl | congruence].
  destruct (Z.eqb_spec (oskar_mem_location jones) (oskar_mem_location out));
    [congruence | reflexivity].
Qed.

(** Past both checks the call is the dispatch on the common tag pair. *)
Lemma auto_power_unsupported_type (on_gpu : bool) num_sources jones out :
  oskar_mem_type out = oskar_mem_type jones ->
  oskar_mem_location out = oskar_mem_location jones ->
  oskar_mem_location jones = (if on_gpu then OSKAR_GPU else OSKAR_CPU) ->
  ~ auto_power_supported (oskar_mem_type jones) ->
  oskar_evaluate_auto_power true num_sources jones out 0
  = (out, OSKAR_ERR_BAD_DATA_TYPE).
Proof.
  intros Ht Hl Hloc Hty. unfold auto_power_supported in Hty.
  unfold oskar_evaluate_auto_power. simpl.
  rewrite Ht, Hl, !Z.eqb_refl. simpl.
  assert (Hgpu : (OSKAR_GPU =? OSKAR_CPU) = false).
  { apply Z.eqb_neq. intros E. apply oskar_locations_distinct. congruence. }
  rewrite Hloc.
  destruct on_gpu; [rewrite Hgpu | idtac]; rewrite Z.eqb_refl;
    repeat match goal with
           | |- context [?a =? ?b] =>
             destruct (Z.eqb_spec a b); [exfalso; apply Hty; tauto | idtac]
           end; reflexivity.
Qed.

Lemma auto_power_no_cuda num_sources jones out :
  oskar_mem_type out = oskar_mem_type jones ->
  oskar_mem_location out = oskar_mem_location jones ->
  oskar_mem_location jones = OSKAR_GPU ->
  oskar_evaluate_auto_power false num_sources jones out 0
  = (out, OSKAR_ERR_CUDA_NOT_AVAILABLE).
Proof.
  intros Ht Hl Hloc. unfold oskar_evaluate_auto_power. simpl.
  rewrite Ht, Hl, !Z.eqb_refl. simpl. rewrite Hloc.
  assert (Hgpu : (OSKAR_GPU =? OSKAR_CPU) = false).
  { apply Z.eqb_neq. intros E. apply oskar_locations_distinct. congruence. }
  rewrite Hgpu, Z.eqb_refl. reflexivity.
Qed.

(** C1 (as amended).  On a call entered with status zero: when the element
    type of the output buffer differs from that of the Jones buffer the
    status becomes the type-mismatch error; when the types agree and the
    locations differ it becomes the location-mismatch error.  In either
    case, whatever the incoming status, the output buffer comes back
    unchanged. *)
Theorem auto_power_mismatch_status_and_frame
    have_cuda num_sources jones out :
  (oskar_mem_type out <> oskar_mem_type jones ->
   oskar_evaluate_auto_power have_cuda num_sources jones out 0
   = (out, OSKAR_ERR_TYPE_MISMATCH))
  /\ (oskar_mem_type out = oskar_mem_type jones ->
      oskar_mem_location out <> oskar_mem_location jones ->
      oskar_evaluate_auto_power have_cuda num_sources jones out 0
      = (out, OSKAR_ERR_LOCATION_MISMATCH))
  /\ (forall status,
        oskar_mem_type out <> oskar_mem_type jones
        \/ oskar_mem_location out <> oskar_mem_location jones ->
        fst (oskar_evaluate_auto_power have_cuda num_sources jones out status)
        = out).
Proof.
  split; [apply auto_power_type_mismatch | split].
  - apply auto_power_location_mismatch.
  - intros status Hdiff.
    destruct (Z.eq_dec status 0) as [-> | Hs].
    + destruct (Z.eq_dec (oskar_mem_type out) (oskar_mem_type jones)) as [Ht | Ht].
      * destruct Hdiff as [? | Hl]; [contradiction | idtac].
        rewrite auto_power_location_mismatch by assumption. reflexivity.
      * rewrite auto_power_type_mismatch by assumption. reflexivity.
    + rewrite auto_power_unsafe by assumption. reflexivity.
Qed.

(** C3 (as amended).  On a call entered with status zero whose two buffers
    agree in element type and location: when the location is the CPU, or
    the GPU with the CUDA backend compiled in, and the element type is
    none of the four supported complex shapes, the status becomes the
    bad-data-type error; when the location is the GPU and no CUDA backend
    is compiled in, the status becomes the CUDA-not-available error,
    whatever the element type.  The output buffer comes back unchanged in
    each case. *)
Theorem auto_power_dispatch_errors num_sources jones out :
  oskar_mem_type out = oskar_mem_type jones ->
  oskar_mem_location out = oskar_mem_location jones ->
  (oskar_mem_location jones = OSKAR_CPU
   \/ oskar_mem_location jones = OSKAR_GPU ->
   ~ auto_power_supported (oskar_mem_type jones) ->
   oskar_evaluate_auto_power true num_sources jones out 0
   = (out, OSKAR_ERR_BAD_DATA_TYPE))
  /\ (oskar_mem_location jones = OSKAR_CPU ->
      ~ auto_power_supported (oskar_mem_type jones) ->
      oskar_evaluate_auto_power false num_sources jones out 0
      = (out, OSKAR_ERR_BAD_DATA_TYPE))
  /\ (oskar_mem_location jones = OSKAR_GPU ->
      oskar_evaluate_auto_power false num_sources jones out 0
      = (out, OSKAR_ERR_CUDA_NOT_AVAILABLE)).
Proof.
  intros Ht Hl. split; [idtac | split].
  - intros [Hloc | Hloc] Hty.
    + apply (auto_power_unsupported_type false); assumption.
    + apply (auto_power_unsupported_type true); assumption.
  - intros Hloc Hty.
    pose proof (auto_power_unsupported_type false num_sources jones out
                  Ht Hl Hloc Hty) as H.
    unfold oskar_evaluate_auto_power in *. simpl in *.
    rewrite Ht, Hl, !Z.eqb_refl in *. simpl in *.
    rewrite Hloc, Z.eqb_refl in *. exact H.
  - intros Hloc. apply auto_power_no_cuda; assumption.
Qed.

(** C10.  The element-type check precedes the location check: for every
    pair of buffers whose element types differ and whose locations differ
    as well, the status the two checks report (the call reaching them, that
    is, entered with status zero) is the type-mismatch error and not the
    location-mismatch error. *)
Theorem auto_power_type_check_first have_cuda num_sources jones out :
  oskar_mem_type out <> oskar_mem_type jones ->
  oskar_mem_location out <> oskar_mem_location jones ->
  snd (oskar_evaluate_auto_power have_cuda num_sources jones out 0)
  = OSKAR_ERR_TYPE_MISMATCH
  /\ snd (oskar_evaluate_auto_power have_cuda num_sources jones out 0)
     <> OSKAR_ERR_LOCATION_MISMATCH.
Proof.
  intros Ht _. rewrite auto_power_type_mismatch by assumption. simpl.
  split; [reflexivity | apply type_mismatch_is_not_location_mismatch].
Qed.

End AutoPowerFacts.

(** ** oskar_sky_override_polarisation *)

Section OverridePolarisationFacts.
Context {G : OskarGlobal} {L : CRuntime}.

Lemma override_polarisation_unsafe (sky : oskar_Sky)
    (mean std mean_angle std_angle : float) (seed status : Z)
    (rng : rand_state) :
  status <> 0 ->
  oskar_sky_override_polarisation (Some sky) mean std mean_angle std_angle
    seed (Some status) rng
  = (Some sky, Some status, rng).
Proof.
  intros Hs. unfold oskar_sky_override_polarisation.
  destruct (Z.eqb_spec status 0); [contradiction | reflexivity].
Qed.

(** C9.  For every sky model and every call whose mean polarisation
    fraction is strictly below zero, the call returns at once: the sky
    model (Stokes Q and U and every other member), the state of the random
    generator and the status come back as they went in, so no error is
    set. *)
Theorem override_polarisation_negative_mean_is_noop (sky : oskar_Sky)
    (mean std mean_angle std_angle : float) (seed : Z) (status : option Z)
    (rng : rand_state) :
  (mean <? 0)%float = true ->
  oskar_sky_override_polarisation (Some sky) mean std mean_angle std_angle
    seed status rng
  = (Some sky, status, rng).
Proof.
  intros Hneg. unfold oskar_sky_override_polarisation.
  destruct status as [status_ | ]; [idtac | reflexivity].
  destruct (negb (status_ =? 0)); [reflexivity | idtac].
  rewrite Hneg. reflexivity.
Qed.

End OverridePolarisationFacts.

(** ** oskar_mem_load_ascii *)

Section LoadAsciiFacts.
Context {G : OskarGlobal} {M : MemOps} {L : CRuntime} {F : AsciiIO}.

Lemma load_ascii_unsafe (filename : string) (num_mem : nat) (status : Z)
    (args : list (oskar_Mem * string)) :
  num_mem <> 0%nat ->
  status <> 0 ->
  oskar_mem_load_ascii (Some filename) num_mem (Some status) args
  = (0%nat, map fst args, Some status).
Proof.
  intros Hn Hs. unfold oskar_mem_load_ascii.
  destruct num_mem as [ | n]; [contradiction | idtac].
  destruct (Z.eqb_spec status 0); [contradiction | reflexivity].
Qed.

End LoadAsciiFacts.

(** ** The status pre-check *)

Section StatusPreCheck.
Context {G : OskarGlobal} {K : AutoPowerKernels} {M : MemOps} {L : CRuntime}
        {F : AsciiIO}.

(** C2 (as amended).  A non-zero incoming status makes the call a no-op
    that returns at once, with every buffer, the other state and the
    status as they went in, for: the auto-power dispatch; the ASCII loader
    when its file name is not null and [num_mem] is not zero (it returns
    0 rows); the sky polarisation override when its sky handle is not
    null. *)
Theorem nonzero_status_is_noop (status : Z) :
  status <> 0 ->
  (forall have_cuda num_sources jones out,
      oskar_evaluate_auto_power have_cuda num_sources jones out status
      = (out, status))
  /\ (forall filename num_mem args,
        num_mem <> 0%nat ->
        oskar_mem_load_ascii (Some filename) num_mem (Some status) args
        = (0%nat, map fst args, Some status))
  /\ (forall sky mean std mean_angle std_angle seed rng,
        oskar_sky_override_polarisation (Some sky) mean std mean_angle
          std_angle seed (Some status) rng
        = (Some sky, Some status, rng)).
Proof.
  intros Hs. split; [idtac | split].
  - intros. apply auto_power_unsafe. exact Hs.
  - intros. apply load_ascii_unsafe; assumption.
  - intros. apply override_polarisation_unsafe. exact Hs.
Qed.

End StatusPreCheck.

(** ** Concrete calls *)

Section ConcreteCalls.
#[local] Existing Instance sample_global.
#[local] Existing Instance sample_kernels.
#[local] Existing Instance sample_mem_ops.
#[local] Existing Instance sample_runtime.
#[local] Existing Instance sample_io.

(** C1 as stated fails: a call entered with the file-I/O error pending
    and buffers of different element types returns with the file-I/O
    error still in the status, not the type-mismatch error. *)
Lemma auto_power_mismatch_with_pending_error :
  oskar_mem_type out_dc_cpu <> oskar_mem_type jones_sc_cpu
  /\ oskar_evaluate_auto_power true 2 jones_sc_cpu out_dc_cpu OSKAR_ERR_FILE_IO
     = (out_dc_cpu, OSKAR_ERR_FILE_IO)
  /\ OSKAR_ERR_FILE_IO <> OSKAR_ERR_TYPE_MISMATCH.
Proof. split; [idtac | split]; vm_compute; congruence. Qed.

Lemma auto_power_mismatch_status_and_frame_witness :
  oskar_evaluate_auto_power true 2 jones_sc_cpu out_dc_cpu 0
  = (out_dc_cpu, OSKAR_ERR_TYPE_MISMATCH)
  /\ oskar_evaluate_auto_power true 2 jones_sc_cpu out_sc_gpu 0
     = (out_sc_gpu, OSKAR_ERR_LOCATION_MISMATCH)
  /\ fst (oskar_evaluate_auto_power true 2 jones_sc_cpu out_sc_gpu
            OSKAR_ERR_FILE_IO) = out_sc_gpu.
Proof.
  split; [idtac | split].
  - apply (auto_power_mismatch_status_and_frame true 2 jones_sc_cpu out_dc_cpu).
    vm_compute. lia.
  - apply (auto_power_mismatch_status_and_frame true 2 jones_sc_cpu out_sc_gpu).
    + reflexivity.
    + vm_compute. lia.
  - apply (auto_power_mismatch_status_and_frame true 2 jones_sc_cpu out_sc_gpu).
    right. vm_compute. lia.
Defined.

(** C3 as stated fails: with no CUDA backend compiled in, a call on GPU
    buffers whose element type is [OSKAR_INT], none of the four supported
    shapes, returns the CUDA-not-available error, not the bad-data-type
    error. *)
Lemma auto_power_unsupported_type_without_cuda :
  oskar_mem_location jones_int_gpu = OSKAR_GPU
  /\ ~ auto_power_supported (oskar_mem_type jones_int_gpu)
  /\ oskar_evaluate_auto_power false 2 jones_int_gpu out_int_gpu 0
     = (out_int_gpu, OSKAR_ERR_CUDA_NOT_AVAILABLE)
  /\ OSKAR_ERR_CUDA_NOT_AVAILABLE <> OSKAR_ERR_BAD_DATA_TYPE.
Proof.
  split; [reflexivity | split; [idtac | split]].
  - unfold auto_power_supported. vm_compute. intuition congruence.
  - reflexivity.
  - vm_compute. congruence.
Qed.

Lemma auto_power_dispatch_errors_witness :
  oskar_evaluate_auto_power true 2 jones_int_cpu out_int_cpu 0
  = (out_int_cpu, OSKAR_ERR_BAD_DATA_TYPE)
  /\ oskar_evaluate_auto_power true 2 jones_int_gpu out_int_gpu 0
     = (out_int_gpu, OSKAR_ERR_BAD_DATA_TYPE)
  /\ oskar_evaluate_auto_power false 2 jones_int_cpu out_int_cpu 0
     = (out_int_cpu, OSKAR_ERR_BAD_DATA_TYPE)
  /\ oskar_evaluate_auto_power false 2 jones_int_gpu out_int_gpu 0
     = (out_int_gpu, OSKAR_ERR_CUDA_NOT_AVAILABLE).
Proof.
  assert (Hint : ~ auto_power_supported 2).
  { unfold auto_power_supported. vm_compute. intuition congruence. }
  split; [idtac | split; [idtac | split]].
  - apply (auto_power_dispatch_errors 2 jones_int_cpu out_int_cpu);
      [reflexivity | reflexivity | left; reflexivity | exact Hint].
  - apply (auto_power_dispatch_errors 2 jones_int_gpu out_int_gpu);
      [reflexivity | reflexivity | right; reflexivity | exact Hint].
  - apply (auto_power_dispatch_errors 2 jones_int_cpu out_int_cpu);
      [reflexivity | reflexivity | reflexivity | exact Hint].
  - apply (auto_power_dispatch_errors 2 jones_int_gpu out_int_gpu);
      reflexivity.
Defined.

Lemma auto_power_type_check_first_witness :
  snd (oskar_evaluate_auto_power true 2 jones_sc_cpu out_dc_gpu 0)
  = OSKAR_ERR_TYPE_MISMATCH
  /\ snd (oskar_evaluate_auto_power true 2 jones_sc_cpu out_dc_gpu 0)
     <> OSKAR_ERR_LOCATION_MISMATCH.
Proof.
  apply (auto_power_type_check_first true 2 jones_sc_cpu out_dc_gpu);
    vm_compute; lia.
Defined.

(** C2 as stated fails.  [oskar_vis_create] takes a status pointer and
    never looks at the incoming value: entered with the file-I/O error
    pending it overwrites the status (bad amplitude type) or builds and
    returns a structure (good arguments).  The loader and the
    polarisation override check their arguments before the status: with
    [num_mem] zero, or a null sky handle, the pending error is replaced by
    the invalid-argument error. *)
Lemma pending_error_is_not_always_a_noop :
  oskar_vis_create OSKAR_INT OSKAR_CPU 1 1 2 (Some OSKAR_ERR_FILE_IO)
  = (None, Some OSKAR_ERR_BAD_DATA_TYPE)
  /\ fst (oskar_vis_create OSKAR_SINGLE_COMPLEX OSKAR_CPU 1 1 2
            (Some OSKAR_ERR_FILE_IO)) <> None
  /\ oskar_mem_load_ascii (Some "sources.txt"%string) 0
       (Some OSKAR_ERR_FILE_IO) []
     = (0%nat, [], Some OSKAR_ERR_INVALID_ARGUMENT)
  /\ oskar_sky_override_polarisation None 0.5%float 0.125%float 0%float
       0.125%float 1 (Some OSKAR_ERR_FILE_IO) (0 : rand_state)
     = (None, Some OSKAR_ERR_INVALID_ARGUMENT, (0 : rand_state))
  /\ OSKAR_ERR_FILE_IO <> OSKAR_ERR_BAD_DATA_TYPE
  /\ OSKAR_ERR_FILE_IO <> OSKAR_ERR_INVALID_ARGUMENT.
Proof. repeat split; vm_compute; congruence. Qed.

(** The loader on a two-line file of two columns, into two empty
    double-precision arrays in CPU memory: two rows, one column each. *)
Example load_ascii_two_columns :
  oskar_mem_load_ascii (Some "sources.txt"%string) 2 (Some 0)
    [(sample_mem OSKAR_DOUBLE OSKAR_CPU [], ""%string);
     (sample_mem OSKAR_DOUBLE OSKAR_CPU [], ""%string)]
  = (2%nat,
     [sample_mem OSKAR_DOUBLE OSKAR_CPU [ElemReal 1; ElemReal 3];
      sample_mem OSKAR_DOUBLE OSKAR_CPU [ElemReal 2; ElemReal 4]],
     Some 0).
Proof. vm_compute. reflexivity. Qed.

Lemma nonzero_status_is_noop_witness :
  oskar_evaluate_auto_power true 2 jones_sc_cpu out_dc_cpu OSKAR_ERR_FILE_IO
  = (out_dc_cpu, OSKAR_ERR_FILE_IO)
  /\ oskar_mem_load_ascii (Some "sources.txt"%string) 1
       (Some OSKAR_ERR_FILE_IO) [(out_dc_cpu, ""%string)]
     = (0%nat, [out_dc_cpu], Some OSKAR_ERR_FILE_IO)
  /\ oskar_sky_override_polarisation (Some sample_sky) 0.5%float 0.125%float
       0%float 0.125%float 1 (Some OSKAR_ERR_FILE_IO) (0 : rand_state)
     = (Some sample_sky, Some OSKAR_ERR_FILE_IO, (0 : rand_state)).
Proof.
  assert (Hs : OSKAR_ERR_FILE_IO <> 0) by (vm_compute; lia).
  destruct (nonzero_status_is_noop OSKAR_ERR_FILE_IO Hs) as (Ha & Hb & Hc).
  split; [apply Ha | split; [idtac | apply Hc]].
  apply (Hb "sources.txt"%string 1%nat [(out_dc_cpu, ""%string)]). lia.
Defined.

Lemma override_polarisation_negative_mean_is_noop_witness :
  oskar_sky_override_polarisation (Some sample_sky) (-0.5)%float 0.125%float
    0%float 0.125%float 1 (Some 0) (0 : rand_state)
  = (Some sample_sky, Some 0, (0 : rand_state)).
Proof.
  apply (override_polarisation_negative_mean_is_noop sample_sky).
  reflexivity.
Defined.

End ConcreteCalls.

(** ** The canonical baseline enumeration *)

Section BaselineFacts.
Local Open Scope nat_scope.
Implicit Types (N a n i j b : nat).

Lemma length_row N i : length (baseline_row N i) = N - S i.
Proof. unfold baseline_row. rewrite length_map, length_seq. reflexivity. Qed.

Lemma lookup_row N i j :
  i < j < N -> baseline_row N i !! (j - i - 1) = Some (i, j).
Proof.
  intros Hij. unfold baseline_row. change (map (pair i) ?l) with (pair i <$> l).
  rewrite list_lookup_fmap, lookup_seq_lt by lia.
  simpl. do 2 f_equal. lia.
Qed.

Lemma rows_cons N a n : baseline_rows N a (S n) = baseline_row N a ++ baseline_rows N (S a) n.
Proof. reflexivity. Qed.

Lemma length_rows_double N a n :
  a + n <= N -> 2 * length (baseline_rows N a n) = n * (2 * N - 2 * a - n - 1).
Proof.
  revert a. induction n as [ | n IH]; intros a Han.
  - simpl. lia.
  - rewrite rows_cons, length_app, length_row.
    specialize (IH (S a) ltac:(lia)). nia.
Qed.

Lemma length_baseline_pairs N : length (baseline_pairs N) = N * (N - 1) / 2.
Proof.
  unfold baseline_pairs.
  pose proof (length_rows_double N 0 (N - 1) ltac:(lia)) as H.
  apply Nat.div_unique_exact; [lia | idtac].
  rewrite H. destruct N; simpl; nia.
Qed.

Lemma baseline_row_start_rows N i :
  i <= N -> baseline_row_start N i = length (baseline_rows N 0 i).
Proof.
  intros Hi. unfold baseline_row_start.
  pose proof (length_rows_double N 0 i ltac:(lia)) as H.
  symmetry. apply Nat.div_unique_exact; [lia | idtac].
  rewrite H. nia.
Qed.

Lemma lookup_rows N a n i j :
  a <= i < a + n -> i < j < N ->
  baseline_rows N a n !! (length (baseline_rows N a (i - a)) + (j - i - 1)) = Some (i, j).
Proof.
  revert a. induction n as [ | n IH]; intros a Hi Hij; [lia | idtac].
  rewrite rows_cons. destruct (decide (i = a)) as [-> | Hne].
  - rewrite Nat.sub_diag. simpl length. simpl Nat.add.
    rewrite lookup_app_l by (rewrite length_row; lia).
    apply lookup_row. exact Hij.
  - replace (i - a) with (S (i - S a)) by lia.
    rewrite rows_cons, length_app, <- Nat.add_assoc.
    rewrite lookup_app_r by lia.
    replace (length (baseline_row N a) + _ - length (baseline_row N a))
      with (length (baseline_rows N (S a) (i - S a)) + (j - i - 1)) by lia.
    apply IH; lia.
Qed.

Lemma lookup_baseline_pairs N i j :
  i < j < N -> baseline_pairs N !! baseline_index N i j = Some (i, j).
Proof.
  intros Hij. unfold baseline_index.
  rewrite baseline_row_start_rows by lia.
  pose proof (lookup_rows N 0 (N - 1) i j ltac:(lia) Hij) as H.
  rewrite Nat.sub_0_r in H. exact H.
Qed.

Lemma elem_of_rows N a n i j :
  (i, j) ∈ baseline_rows N a n -> a <= i < a + n /\ i < j < N.
Proof.
  revert a. induction n as [ | n IH]; intros a Hin.
  - simpl in Hin. inversion Hin.
  - rewrite rows_cons in Hin. apply elem_of_app in Hin as [Hin | Hin].
    + unfold baseline_row in Hin.
      change (map (pair a) ?l) with (pair a <$> l) in Hin.
      apply list_elem_of_fmap in Hin as (j' & Heq & Hj').
      inversion Heq; subst. apply elem_of_seq in Hj'. lia.
    + apply IH in Hin. lia.
Qed.

Lemma elem_of_baseline_pairs N i j :
  (i, j) ∈ baseline_pairs N -> i < j < N.
Proof. intros H. apply elem_of_rows in H. lia. Qed.

Lemma NoDup_rows N a n : NoDup (baseline_rows N a n).
Proof.
  revert a. induction n as [ | n IH]; intros a.
  - constructor.
  - rewrite rows_cons. apply NoDup_app. split; [idtac | split].
    + unfold baseline_row. change (map (pair a) ?l) with (pair a <$> l).
      apply NoDup_fmap_2; [intros x y Hxy; congruence | apply NoDup_seq].
    + intros [i j] Hrow Hrest. unfold baseline_row in Hrow.
      change (map (pair a) ?l) with (pair a <$> l) in Hrow.
      apply list_elem_of_fmap in Hrow as (j' & Heq & _). inversion Heq; subst.
      apply elem_of_rows in Hrest. lia.
    + apply IH.
Qed.

Lemma NoDup_baseline_pairs N : NoDup (baseline_pairs N).
Proof. apply NoDup_rows. Qed.

End BaselineFacts.

(** ** Station-to-baseline conversion *)

Section ConversionFacts.
Context {L : CRuntime}.
Local Open Scope nat_scope.
Implicit Types (N i j b k m : nat) (u v w uu vv ww arr : list float).

Lemma length_write_run {A} (f : A -> float) b (ps : list A) arr :
  length (write_run f b ps arr) = length arr.
Proof.
  revert b arr. induction ps as [ | p ps IH]; intros b arr; simpl.
  - reflexivity.
  - rewrite IH, length_insert. reflexivity.
Qed.

Lemma write_run_lookup_before {A} (f : A -> float) b (ps : list A) arr m :
  m < b -> write_run f b ps arr !! m = arr !! m.
Proof.
  revert b arr. induction ps as [ | p ps IH]; intros b arr Hm; simpl.
  - reflexivity.
  - rewrite IH by lia. apply list_lookup_insert_ne. lia.
Qed.

Lemma write_run_lookup {A} (f : A -> float) b (ps : list A) arr k p :
  ps !! k = Some p -> b + k < length arr ->
  write_run f b ps arr !! (b + k) = Some (f p).
Proof.
  revert b arr k. induction ps as [ | q ps IH]; intros b arr k Hk Hlen.
  - inversion Hk.
  - simpl. destruct k as [ | k]; simpl in Hk.
    + inversion Hk; subst. rewrite Nat.add_0_r.
      rewrite write_run_lookup_before by lia.
      apply list_lookup_insert_eq. lia.
    + replace (b + S k) with (S b + k) by lia.
      apply IH; [exact Hk | rewrite length_insert; lia].
Qed.

Lemma write_run_all {A} (f : A -> float) (ps : list A) arr :
  length arr = length ps -> write_run f 0 ps arr = map f ps.
Proof.
  intros Hlen. apply list_eq. intros m.
  change (map f ps) with (f <$> ps). rewrite list_lookup_fmap.
  destruct (ps !! m) as [p | ] eqn:Hm; simpl.
  - apply (write_run_lookup f 0 ps arr m p Hm).
    apply lookup_lt_Some in Hm. lia.
  - apply lookup_ge_None in Hm. apply lookup_ge_None.
    rewrite length_write_run. lia.
Qed.

Lemma fold_left_pairs {St A B} (g : St -> A * B -> St) (a : A) (xs : list B)
    (s : St) :
  fold_left (fun s x => g s (a, x)) xs s = fold_left g (map (pair a) xs) s.
Proof.
  revert s. induction xs as [ | x xs IH]; intros s; simpl; [reflexivity | apply IH].
Qed.

(** The loop nest visits the pairs in the order of [baseline_rows]. *)
Lemma fold_left_rows {St} (g : St -> nat * nat -> St) N (rs : list nat) (s : St) :
  fold_left (fun s i => fold_left (fun s j => g s (i, j)) (seq (S i) (N - S i)) s) rs s
  = fold_left g (flat_map (baseline_row N) rs) s.
Proof.
  revert s. induction rs as [ | i rs IH]; intros s; simpl; [reflexivity | idtac].
  rewrite fold_left_app, IH. f_equal. apply fold_left_pairs.
Qed.

Lemma fold_left_baseline_uvw_step sub u v w (ps : list (nat * nat)) b uu vv ww :
  fold_left (baseline_uvw_step sub u v w) ps (b, (uu, vv, ww))
  = (b + length ps,
     (write_run (fun p => sub (row_at u (fst p)) (row_at u (snd p))) b ps uu,
      write_run (fun p => sub (row_at v (fst p)) (row_at v (snd p))) b ps vv,
      write_run (fun p => sub (row_at w (fst p)) (row_at w (snd p))) b ps ww)).
Proof.
  revert b uu vv ww. induction ps as [ | [i j] ps IH]; intros b uu vv ww; simpl.
  - rewrite Nat.add_0_r. reflexivity.
  - rewrite IH. f_equal. lia.
Qed.

Lemma convert_station_uvw_write_run sub N u v w uu vv ww :
  convert_station_uvw_to_baseline_uvw sub (Z.of_nat N) u v w uu vv ww
  = (write_run (fun p => sub (row_at u (fst p)) (row_at u (snd p))) 0
       (baseline_pairs N) uu,
     write_run (fun p => sub (row_at v (fst p)) (row_at v (snd p))) 0
       (baseline_pairs N) vv,
     write_run (fun p => sub (row_at w (fst p)) (row_at w (snd p))) 0
       (baseline_pairs N) ww).
Proof.
  unfold convert_station_uvw_to_baseline_uvw. rewrite Nat2Z.id.
  rewrite (fold_left_rows (baseline_uvw_step sub u v w)).
  change (flat_map (baseline_row N) (seq 0 (N - 1))) with (baseline_pairs N).
  rewrite fold_left_baseline_uvw_step. reflexivity.
Qed.

(** With output arrays of exactly the documented length, every slot is
    written, in canonical order. *)
Lemma convert_station_uvw_fills sub N u v w uu vv ww :
  length uu = N * (N - 1) / 2 ->
  length vv = N * (N - 1) / 2 ->
  length ww = N * (N - 1) / 2 ->
  convert_station_uvw_to_baseline_uvw sub (Z.of_nat N) u v w uu vv ww
  = (map (fun p => sub (row_at u (fst p)) (row_at u (snd p))) (baseline_pairs N),
     map (fun p => sub (row_at v (fst p)) (row_at v (snd p))) (baseline_pairs N),
     map (fun p => sub (row_at w (fst p)) (row_at w (snd p))) (baseline_pairs N)).
Proof.
  intros Hu Hv Hw. rewrite convert_station_uvw_write_run.
  rewrite !write_run_all by (rewrite length_baseline_pairs; assumption).
  reflexivity.
Qed.

Lemma write_run_baseline sub N i j (x arr : list float) :
  i < j < N ->
  N * (N - 1) / 2 <= length arr ->
  write_run (fun p => sub (row_at x (fst p)) (row_at x (snd p))) 0
    (baseline_pairs N) arr !! baseline_index N i j
  = Some (sub (row_at x i) (row_at x j)).
Proof.
  intros Hij Hlen.
  pose proof (lookup_baseline_pairs N i j Hij) as Hp.
  pose proof (lookup_lt_Some _ _ _ Hp) as Hlt.
  rewrite length_baseline_pairs in Hlt.
  exact (write_run_lookup
           (fun p => sub (row_at x (fst p)) (row_at x (snd p))) 0
           (baseline_pairs N) arr (baseline_index N i j) (i, j) Hp
           ltac:(simpl; lia)).
Qed.

Lemma convert_station_uvw_lookup sub N i j u v w uu vv ww :
  i < j < N ->
  N * (N - 1) / 2 <= length uu ->
  N * (N - 1) / 2 <= length vv ->
  N * (N - 1) / 2 <= length ww ->
  let '(uu', vv', ww') :=
    convert_station_uvw_to_baseline_uvw sub (Z.of_nat N) u v w uu vv ww in
  uu' !! baseline_index N i j = Some (sub (row_at u i) (row_at u j))
  /\ vv' !! baseline_index N i j = Some (sub (row_at v i) (row_at v j))
  /\ ww' !! baseline_index N i j = Some (sub (row_at w i) (row_at w j)).
Proof.
  intros Hij Hu Hv Hw. rewrite convert_station_uvw_write_run.
  split; [idtac | split]; apply write_run_baseline; assumption.
Qed.

(** C5.  For every pair of stations i < j and all station (u,v,w) arrays,
    the baseline (u,v,w) the station-to-baseline conversion computes for the
    pair is station i minus station j, stored at the pair's canonical
    baseline index; for the double-precision routine the difference is the
    [double] difference, for the single-precision routine the [float]
    one. *)
Theorem baseline_uvw_is_station_i_minus_station_j
    N i j u v w uu vv ww :
  i < j < N ->
  N * (N - 1) / 2 <= length uu ->
  N * (N - 1) / 2 <= length vv ->
  N * (N - 1) / 2 <= length ww ->
  (let '(uu', vv', ww') :=
     oskar_convert_station_uvw_to_baseline_uvw_d (Z.of_nat N) u v w uu vv ww in
   uu' !! baseline_index N i j = Some (row_at u i - row_at u j)%float
   /\ vv' !! baseline_index N i j = Some (row_at v i - row_at v j)%float
   /\ ww' !! baseline_index N i j = Some (row_at w i - row_at w j)%float)
  /\ (let '(uu', vv', ww') :=
        oskar_convert_station_uvw_to_baseline_uvw_f (Z.of_nat N) u v w uu vv ww in
      uu' !! baseline_index N i j = Some (to_float (row_at u i - row_at u j)%float)
      /\ vv' !! baseline_index N i j = Some (to_float (row_at v i - row_at v j)%float)
      /\ ww' !! baseline_index N i j = Some (to_float (row_at w i - row_at w j)%float)).
Proof.
  intros Hij Hu Hv Hw. split.
  - exact (convert_station_uvw_lookup PrimFloat.sub N i j u v w uu vv ww Hij Hu Hv Hw).
  - exact (convert_station_uvw_lookup (fun x y => to_float (x - y)%float)
             N i j u v w uu vv ww Hij Hu Hv Hw).
Qed.

End ConversionFacts.

(** ** oskar_vis_create *)

Section VisCreateFacts.
Context {G : OskarGlobal} {M : MemOps}.

Lemma int_wrap_small (z : Z) : - 2 ^ 31 <= z < 2 ^ 31 -> int_wrap z = z.
Proof. intros Hz. unfold int_wrap. rewrite Z.mod_small; lia. Qed.

(** No overflow up to 46341 stations: 46341 * 46340 <= INT_MAX. *)
Lemma int_baseline_count (N : Z) :
  0 <= N <= 46341 ->
  int_div (int_mul N (int_sub N 1)) 2 = N * (N - 1) / 2.
Proof.
  intros HN. unfold int_div, int_mul, int_sub.
  rewrite (int_wrap_small (N - 1)) by lia.
  assert (Hprod : 0 <= N * (N - 1) <= 46341 * 46340) by nia.
  rewrite (int_wrap_small (N * (N - 1))) by lia.
  rewrite Z.quot_div_nonneg by lia.
  apply int_wrap_small.
  assert (0 <= N * (N - 1) / 2) by (apply Z.div_pos; lia).
  assert (N * (N - 1) / 2 <= 46341 * 46340 / 2)
    by (apply Z.div_le_mono; lia).
  change (46341 * 46340 / 2) with 1073720970 in *. lia.
Qed.

Lemma vis_create_dimensions amp_type location num_channels num_times
    num_stations status vis status' :
  oskar_vis_create amp_type location num_channels num_times num_stations status
  = (Some vis, status') ->
  vis_num_stations vis = num_stations
  /\ vis_num_baselines vis
     = int_div (int_mul num_stations (int_sub num_stations 1)) 2.
Proof.
  unfold oskar_vis_create. destruct status as [status_ | ]; [idtac | discriminate].
  destruct (oskar_mem_type_is_double amp_type);
    [idtac | destruct (oskar_mem_type_is_single amp_type); [idtac | discriminate]];
    (destruct (negb (oskar_mem_type_is_complex amp_type)); [discriminate | idtac];
     destruct (negb (location =? OSKAR_GPU) && negb (location =? OSKAR_CPU));
       [discriminate | idtac];
     match goal with
     | |- context [create_all ?reqs ?st] =>
       destruct (create_all reqs st) as [mems st']
     end;
     intros H; inversion H; subst; simpl; split; reflexivity).
Qed.

(** With a complex amplitude type and a known location the structure is
    built, whatever the incoming status. *)
Lemma vis_create_returns amp_type location num_channels num_times
    num_stations status_ :
  oskar_mem_type_is_double amp_type || oskar_mem_type_is_single amp_type = true ->
  oskar_mem_type_is_complex amp_type = true ->
  location = OSKAR_GPU \/ location = OSKAR_CPU ->
  exists vis status',
    oskar_vis_create amp_type location num_channels num_times num_stations
      (Some status_) = (Some vis, status').
Proof.
  intros Hprec Hcplx Hloc. unfold oskar_vis_create.
  assert (Hl : negb (location =? OSKAR_GPU) && negb (location =? OSKAR_CPU) = false).
  { destruct Hloc as [-> | ->]; rewrite Z.eqb_refl; simpl;
      [reflexivity | apply andb_false_r]. }
  rewrite Hcplx, Hl. cbn [negb].
  destruct (oskar_mem_type_is_double amp_type);
    [idtac | destruct (oskar_mem_type_is_single amp_type); [idtac | discriminate]];
    match goal with
    | |- context [create_all ?reqs ?st] =>
      destruct (create_all reqs st) as [mems st']
    end; eauto.
Qed.

End VisCreateFacts.

(** ** The baseline count *)

Section BaselineCount.
Context {G : OskarGlobal} {M : MemOps}.
Local Open Scope nat_scope.

(** C4 (as amended).  For every number of stations N the canonical
    enumeration (for i = 0..N-2, for j = i+1..N-1) of the station pairs
    (i, j), i < j, has N(N-1)/2 members and is a bijection onto the index
    set {0, ..., N(N-1)/2 - 1}: the pair (i, j) sits at its canonical
    index, which is in range, and every index in range is the canonical
    index of the pair found there.  Baseline coordinate arrays pre-sized to
    this count are filled slot by slot by the conversion, in canonical
    order.  The visibility structure's baseline dimension is this count as
    long as N <= 46341, where the [int] product N * (N - 1) does not
    overflow. *)
Theorem baseline_count_and_canonical_order (N : nat) :
  length (baseline_pairs N) = N * (N - 1) / 2
  /\ (forall i j, i < j < N ->
        baseline_index N i j < N * (N - 1) / 2
        /\ baseline_pairs N !! baseline_index N i j = Some (i, j))
  /\ (forall b, b < N * (N - 1) / 2 ->
        exists i j, i < j < N
                    /\ baseline_pairs N !! b = Some (i, j)
                    /\ baseline_index N i j = b)
  /\ (forall sub u v w uu vv ww,
        length uu = N * (N - 1) / 2 ->
        length vv = N * (N - 1) / 2 ->
        length ww = N * (N - 1) / 2 ->
        convert_station_uvw_to_baseline_uvw sub (Z.of_nat N) u v w uu vv ww
        = (map (fun p => sub (row_at u (fst p)) (row_at u (snd p))) (baseline_pairs N),
           map (fun p => sub (row_at v (fst p)) (row_at v (snd p))) (baseline_pairs N),
           map (fun p => sub (row_at w (fst p)) (row_at w (snd p))) (baseline_pairs N)))
  /\ ((Z.of_nat N <= 46341)%Z ->
      forall amp_type location num_channels num_times status vis status',
        oskar_vis_create amp_type location num_channels num_times
          (Z.of_nat N) status = (Some vis, status') ->
        vis_num_baselines vis = Z.of_nat (N * (N - 1) / 2)).
Proof.
  split; [apply length_baseline_pairs | idtac].
  split.
  { intros i j Hij. pose proof (lookup_baseline_pairs N i j Hij) as Hp.
    split; [idtac | exact Hp].
    rewrite <- length_baseline_pairs. exact (lookup_lt_Some _ _ _ Hp). }
  split.
  { intros b Hb. rewrite <- length_baseline_pairs in Hb.
    destruct (lookup_lt_is_Some_2 _ _ Hb) as [[i j] Hp].
    pose proof (elem_of_baseline_pairs N i j (list_elem_of_lookup_2 _ _ _ Hp)) as Hij.
    exists i, j. split; [exact Hij | split; [exact Hp | idtac]].
    exact (NoDup_lookup _ _ _ _ (NoDup_baseline_pairs N)
             (lookup_baseline_pairs N i j Hij) Hp). }
  split.
  { intros. apply convert_station_uvw_fills; assumption. }
  intros HN amp_type location num_channels num_times status vis status' Hvis.
  destruct (vis_create_dimensions _ _ _ _ _ _ _ _ Hvis) as [_ ->].
  rewrite int_baseline_count by lia.
  rewrite Nat2Z.inj_div, Nat2Z.inj_mul, Nat2Z.inj_sub_max.
  destruct N as [ | N']; [reflexivity | idtac].
  f_equal. f_equal. lia.
Qed.

End BaselineCount.

(** ** Resizing *)

Section ReallocFacts.
Context {G : OskarGlobal} {M : MemOps}.
Local Open Scope nat_scope.
Implicit Types (mem : oskar_Mem) (k n : nat).

(** What a call of [oskar_mem_realloc] can leave: the buffer as it was, or
    the resized one. *)
Lemma realloc_cases mem n (status : Z) :
  oskar_mem_realloc mem n status = (mem, status)
  \/ oskar_mem_realloc mem n status = (mem, OSKAR_ERR_MEMORY_ALLOC_FAILURE)
  \/ (status = 0%Z /\ alloc_ok n = true
      /\ oskar_mem_realloc mem n status
         = (oskar_mem_set_data mem
              (take n (oskar_mem_data mem)
               ++ replicate (n - oskar_mem_length mem)
                    (elem_zero (oskar_mem_type mem))), 0%Z)).
Proof.
  unfold oskar_mem_realloc.
  destruct (Z.eqb_spec status 0) as [-> | Hs]; simpl; [idtac | tauto].
  destruct (n =? oskar_mem_length mem); [tauto | idtac].
  destruct (alloc_ok n); tauto.
Qed.

Lemma resized_lookup_prefix mem n k :
  k < n -> k < oskar_mem_length mem ->
  (take n (oskar_mem_data mem)
   ++ replicate (n - oskar_mem_length mem) (elem_zero (oskar_mem_type mem))) !! k
  = oskar_mem_data mem !! k.
Proof.
  intros Hn Hk. unfold oskar_mem_length in *.
  rewrite lookup_app_l by (rewrite length_take; lia).
  apply lookup_take_lt. exact Hn.
Qed.

Lemma resized_lookup_tail mem n k :
  oskar_mem_length mem <= k < n ->
  (take n (oskar_mem_data mem)
   ++ replicate (n - oskar_mem_length mem) (elem_zero (oskar_mem_type mem))) !! k
  = Some (elem_zero (oskar_mem_type mem)).
Proof.
  intros Hk. unfold oskar_mem_length in *.
  rewrite lookup_app_r by (rewrite length_take; lia).
  apply lookup_replicate_2. rewrite length_take. lia.
Qed.

(** C8.  A successful resize (entered with status zero, returning status
    zero) leaves a buffer of the new length, of the same element type and
    location, whose first min(old length, new length) elements are the old
    ones and whose elements past the old length, when the new length is
    larger, are zero.  The resize does succeed whenever the allocator grants
    the block. *)
Theorem realloc_preserves_prefix_and_zero_fills mem n :
  (alloc_ok n = true -> snd (oskar_mem_realloc mem n 0) = 0%Z)
  /\ (forall mem',
        oskar_mem_realloc mem n 0 = (mem', 0%Z) ->
        oskar_mem_length mem' = n
        /\ oskar_mem_type mem' = oskar_mem_type mem
        /\ oskar_mem_location mem' = oskar_mem_location mem
        /\ (forall k, k < Nat.min (oskar_mem_length mem) n ->
              oskar_mem_data mem' !! k = oskar_mem_data mem !! k)
        /\ (forall k, oskar_mem_length mem <= k < n ->
              oskar_mem_data mem' !! k = Some (elem_zero (oskar_mem_type mem)))).
Proof.
  split.
  - intros Hok. unfold oskar_mem_realloc. simpl.
    destruct (n =? oskar_mem_length mem); [reflexivity | idtac].
    rewrite Hok. reflexivity.
  - intros mem' Hre. unfold oskar_mem_realloc in Hre. simpl in Hre.
    destruct (Nat.eqb_spec n (oskar_mem_length mem)) as [Heq | Hne].
    + inversion Hre; subst mem'.
      split; [lia | split; [reflexivity | split; [reflexivity | split]]].
      * intros k Hk. reflexivity.
      * intros k Hk. lia.
    + destruct (alloc_ok n).
      * inversion Hre; subst mem'. simpl. unfold oskar_mem_length at 1. simpl.
        split; [idtac | split; [reflexivity | split; [reflexivity | split]]].
        -- rewrite length_app, length_take, length_replicate.
           unfold oskar_mem_length. lia.
        -- intros k Hk. apply resized_lookup_prefix; lia.
        -- intros k Hk. apply resized_lookup_tail; lia.
      * inversion Hre as [[Hmem Hst]]. exfalso.
        exact (alloc_failure_nonzero Hst).
Qed.

End ReallocFacts.

(** ** Growing the arrays while loading *)

Section LoadGrowth.
Context {G : OskarGlobal} {M : MemOps} {L : CRuntime} {F : AsciiIO}.
Local Open Scope nat_scope.

(** Rows already in the buffer survive the resize the loader asks for. *)
Lemma realloc_keeps_rows (mem : oskar_Mem) (n k : nat) (status : Z) :
  k < n -> k < oskar_mem_length mem ->
  oskar_mem_data (fst (oskar_mem_realloc mem n status)) !! k
  = oskar_mem_data mem !! k.
Proof.
  intros Hn Hk.
  destruct (realloc_cases mem n status) as [-> | [-> | (_ & _ & ->)]];
    simpl; try reflexivity.
  apply resized_lookup_prefix; assumption.
Qed.

(** [store_data] writes row [r] and no other. *)
Lemma store_data_other_rows (data : list elem) (type : Z) (r c k : nat)
    (row_data : list float) (status : Z) :
  k <> r ->
  (store_data data type r c row_data status).1.1 !! k = data !! k.
Proof.
  intros Hk. unfold store_data.
  repeat match goal with
         | |- context [if (?a =? ?b)%Z then _ else _] => destruct (a =? b)%Z
         end; simpl; try reflexivity;
    apply list_lookup_insert_ne; congruence.
Qed.

(** Lines 126-139: storing one row, with the resize it may need, keeps
    every earlier row of every array. *)
Lemma store_row_keeps_rows (mem_handle : list oskar_Mem) (row_index col_index : nat)
    (row_data : list float) (status : Z) :
  Forall2
    (fun before after =>
       forall k, k < row_index -> k < oskar_mem_length before ->
                 oskar_mem_data after !! k = oskar_mem_data before !! k)
    mem_handle
    (store_row mem_handle row_index col_index row_data status).1.1.
Proof.
  revert col_index status.
  induction mem_handle as [ | handle rest IH]; intros col_index status; simpl.
  - constructor.
  - assert (Hrest : Forall2
              (fun before after =>
                 forall k, k < row_index -> k < oskar_mem_length before ->
                           oskar_mem_data after !! k = oskar_mem_data before !! k)
              rest rest).
    { clear. induction rest; constructor; auto. }
    destruct (oskar_mem_length handle <=? row_index) eqn:Hlen.
    + pose proof (realloc_keeps_rows handle (row_index + 100)) as Hkeep.
      destruct (oskar_mem_realloc handle (row_index + 100) status)
        as [handle' status'] eqn:Hre.
      destruct (negb (status' =? 0)%Z); simpl.
      * constructor; [idtac | exact Hrest].
        intros k Hk Hk'. specialize (Hkeep k status ltac:(lia) Hk').
        rewrite Hre in Hkeep. exact Hkeep.
      * destruct (store_data _ _ _ _ _ _) as [[data c'] st'] eqn:Hst.
        specialize (IH c' st').
        destruct (store_row rest row_index c' row_data st') as [[rest' c''] st''].
        simpl in *. constructor; [idtac | exact IH].
        intros k Hk Hk'.
        pose proof (store_data_other_rows (oskar_mem_data handle')
                      (oskar_mem_type handle') row_index col_index k row_data
                      status' ltac:(lia)) as Hd.
        rewrite Hst in Hd. simpl in Hd.
        unfold oskar_mem_set_data. simpl. rewrite Hd.
        specialize (Hkeep k status ltac:(lia) Hk').
        rewrite Hre in Hkeep. exact Hkeep.
    + simpl.
      destruct (store_data _ _ _ _ _ _) as [[data c'] st'] eqn:Hst.
      specialize (IH c' st').
      destruct (store_row rest row_index c' row_data st') as [[rest' c''] st''].
      simpl in *. constructor; [idtac | exact IH].
      intros k Hk Hk'.
      pose proof (store_data_other_rows (oskar_mem_data handle)
                    (oskar_mem_type handle) row_index col_index k row_data
                    status ltac:(lia)) as Hd.
      rewrite Hst in Hd. simpl in Hd.
      unfold oskar_mem_set_data. simpl. exact Hd.
Qed.

End LoadGrowth.

(** ** More concrete calls *)

Section ConcreteGeometry.
#[local] Existing Instance sample_global.
#[local] Existing Instance sample_mem_ops.
#[local] Existing Instance sample_runtime.

(** C4 as stated fails for the visibility structure: for 65536 stations
    the count N(N-1)/2 = 2147450880 fits an [int], but the product
    65536 * 65535 does not; it wraps to -65536 and the baseline dimension
    of the structure comes out as -32768. *)
Lemma vis_create_baseline_count_overflows :
  option_map vis_num_baselines
    (fst (oskar_vis_create OSKAR_SINGLE_COMPLEX OSKAR_CPU 1 1 65536 (Some 0)))
  = Some (-32768)
  /\ 65536 * (65536 - 1) / 2 = 2147450880
  /\ 2147450880 <= INT_MAX.
Proof. split; [idtac | split]; vm_compute; congruence. Qed.

Lemma baseline_count_and_canonical_order_witness :
  length (baseline_pairs 4) = 6%nat
  /\ baseline_pairs 4 !! baseline_index 4 1 3 = Some (1%nat, 3%nat)
  /\ (exists i j, (i < j < 4)%nat
                  /\ baseline_pairs 4 !! 5%nat = Some (i, j)
                  /\ baseline_index 4 i j = 5%nat)
  /\ match oskar_vis_create OSKAR_SINGLE_COMPLEX OSKAR_CPU 1 1 4 (Some 0) with
     | (Some vis, _) => vis_num_baselines vis = 6
     | _ => False
     end.
Proof.
  destruct (baseline_count_and_canonical_order 4) as (H1 & H2 & H3 & _ & H5).
  split; [exact H1 | split; [idtac | split]].
  - apply (H2 1%nat 3%nat). lia.
  - apply (H3 5%nat). vm_compute. lia.
  - destruct (oskar_vis_create OSKAR_SINGLE_COMPLEX OSKAR_CPU 1 1 4 (Some 0))
      as [[vis | ] status'] eqn:E.
    + apply (H5 ltac:(vm_compute; discriminate) _ _ _ _ _ _ _ E).
    + vm_compute in E. discriminate E.
Defined.

Lemma baseline_uvw_is_station_i_minus_station_j_witness :
  (let '(uu', vv', ww') :=
     oskar_convert_station_uvw_to_baseline_uvw_d 3 station_u station_v
       station_w baseline_zeros baseline_zeros baseline_zeros in
   uu' !! baseline_index 3 0 2 = Some (0 - 200)%float
   /\ vv' !! baseline_index 3 0 2 = Some (0 - 30)%float
   /\ ww' !! baseline_index 3 0 2 = Some (1 - 4)%float)
  /\ (let '(uu', vv', ww') :=
        oskar_convert_station_uvw_to_baseline_uvw_f 3 station_u station_v
          station_w baseline_zeros baseline_zeros baseline_zeros in
      uu' !! baseline_index 3 0 2 = Some (to_float (0 - 200)%float)
      /\ vv' !! baseline_index 3 0 2 = Some (to_float (0 - 30)%float)
      /\ ww' !! baseline_index 3 0 2 = Some (to_float (1 - 4)%float)).
Proof.
  apply (baseline_uvw_is_station_i_minus_station_j 3 0 2 station_u station_v
           station_w baseline_zeros baseline_zeros baseline_zeros);
    vm_compute; lia.
Defined.

Lemma realloc_preserves_prefix_and_zero_fills_witness :
  oskar_mem_length (fst (oskar_mem_realloc two_rows 4 0)) = 4%nat
  /\ oskar_mem_data (fst (oskar_mem_realloc two_rows 4 0)) !! 1%nat
     = Some (ElemReal 9)
  /\ oskar_mem_data (fst (oskar_mem_realloc two_rows 4 0)) !! 3%nat
     = Some (ElemReal 0).
Proof.
  destruct (realloc_preserves_prefix_and_zero_fills two_rows 4) as [_ H].
  pose (resized := fst (oskar_mem_realloc two_rows 4 0)).
  assert (Hre : oskar_mem_realloc two_rows 4 0 = (resized, 0)) by reflexivity.
  destruct (H resized Hre) as (Hlen & _ & _ & Hprefix & Htail).
  split; [exact Hlen | split].
  - apply (Hprefix 1%nat). vm_compute. lia.
  - apply (Htail 3%nat). vm_compute. lia.
Defined.

End ConcreteGeometry.


(** * Further properties of the code *)

(** ** More on the enumerators *)

Section TagFacts.
Context {G : OskarGlobal}.

Lemma nodup_lookup_ne (l : list Z) (i j : nat) (x y : Z) :
  NoDup l -> l !! i = Some x -> l !! j = Some y -> i <> j -> x <> y.
Proof.
  intros Hnd Hi Hj Hij Hxy. subst y.
  exact (Hij (NoDup_lookup l i j x Hnd Hi Hj)).
Qed.

Lemma type_tag_ne (i j : nat) (x y : Z) :
  oskar_type_tags !! i = Some x -> oskar_type_tags !! j = Some y ->
  i <> j -> (x =? y) = false.
Proof.
  intros Hi Hj Hij. apply Z.eqb_neq.
  exact (nodup_lookup_ne _ i j x y oskar_types_distinct Hi Hj Hij).
Qed.

Lemma error_code_eqb_0 (e : Z) : e ∈ oskar_error_codes -> (e =? 0) = false.
Proof. intros He. apply Z.eqb_neq. exact (error_code_nonzero e He). Qed.

End TagFacts.

Section SupportedTags.
Context {G : OskarGlobal}.

(** The four supported tags, tested against one another in the order of
    the [switch]. *)
Lemma supported_tags_differ :
  (OSKAR_DOUBLE_COMPLEX_MATRIX =? OSKAR_SINGLE_COMPLEX_MATRIX) = false
  /\ (OSKAR_SINGLE_COMPLEX =? OSKAR_SINGLE_COMPLEX_MATRIX) = false
  /\ (OSKAR_SINGLE_COMPLEX =? OSKAR_DOUBLE_COMPLEX_MATRIX) = false
  /\ (OSKAR_DOUBLE_COMPLEX =? OSKAR_SINGLE_COMPLEX_MATRIX) = false
  /\ (OSKAR_DOUBLE_COMPLEX =? OSKAR_DOUBLE_COMPLEX_MATRIX) = false
  /\ (OSKAR_DOUBLE_COMPLEX =? OSKAR_SINGLE_COMPLEX) = false.
Proof.
  repeat apply conj.
  - apply (type_tag_ne 7 6); [reflexivity | reflexivity | discriminate].
  - apply (type_tag_ne 4 6); [reflexivity | reflexivity | discriminate].
  - apply (type_tag_ne 4 7); [reflexivity | reflexivity | discriminate].
  - apply (type_tag_ne 5 6); [reflexivity | reflexivity | discriminate].
  - apply (type_tag_ne 5 7); [reflexivity | reflexivity | discriminate].
  - apply (type_tag_ne 5 4); [reflexivity | reflexivity | discriminate].
Qed.

End SupportedTags.

(** Rewrites the tests of one supported tag against another to [false]. *)
Ltac tags_differ :=
  let H := fresh in
  pose proof supported_tags_differ as H;
  destruct H as (? & ? & ? & ? & ? & ?);
  repeat match goal with
         | E : (?x =? ?y) = false |- context [(?x =? ?y)] => rewrite E
         end.

(** ** oskar_evaluate_auto_power: the dispatch itself *)

Section AutoPowerDispatch.
Context {G : OskarGlobal} {K : AutoPowerKernels}.
Implicit Types (jones out : oskar_Mem) (status num_sources : Z).

Lemma auto_power_case_matching ty kernel num_sources jones out status :
  oskar_mem_type jones = ty -> oskar_mem_type out = ty ->
  auto_power_case ty kernel num_sources jones out status
  = (oskar_mem_set_data out
       (kernel num_sources (oskar_mem_data jones) (oskar_mem_data out)),
     status).
Proof.
  intros Hj Ho. unfold auto_power_case, oskar_mem_accessor.
  rewrite Hj, Ho, Z.eqb_refl. reflexivity.
Qed.

Lemma gpu_is_not_cpu : (OSKAR_GPU =? OSKAR_CPU) = false.
Proof.
  apply Z.eqb_neq. intros E. apply oskar_locations_distinct. congruence.
Qed.

(** X1.  Entered with status zero on two CPU buffers of the same supported
    element type, the dispatch runs the CPU inner loop of that type (the
    matrix loops for the two matrix types, the scalar loops for the two
    complex types, single or double as the type says) on the two arrays,
    stores its result in the output buffer and leaves the status zero. *)
Theorem auto_power_cpu_runs_matching_kernel have_cuda num_sources jones out :
  oskar_mem_type out = oskar_mem_type jones ->
  oskar_mem_location jones = OSKAR_CPU ->
  oskar_mem_location out = OSKAR_CPU ->
  let run kernel :=
    (oskar_mem_set_data out
       (kernel num_sources (oskar_mem_data jones) (oskar_mem_data out)), 0) in
  (oskar_mem_type jones = OSKAR_SINGLE_COMPLEX_MATRIX ->
   oskar_evaluate_auto_power have_cuda num_sources jones out 0
   = run oskar_evaluate_auto_power_f)
  /\ (oskar_mem_type jones = OSKAR_DOUBLE_COMPLEX_MATRIX ->
      oskar_evaluate_auto_power have_cuda num_sources jones out 0
      = run oskar_evaluate_auto_power_d)
  /\ (oskar_mem_type jones = OSKAR_SINGLE_COMPLEX ->
      oskar_evaluate_auto_power have_cuda num_sources jones out 0
      = run oskar_evaluate_auto_power_scalar_f)
  /\ (oskar_mem_type jones = OSKAR_DOUBLE_COMPLEX ->
      oskar_evaluate_auto_power have_cuda num_sources jones out 0
      = run oskar_evaluate_auto_power_scalar_d).
Proof.
  intros Ht Hlj Hlo run. unfold oskar_evaluate_auto_power. simpl.
  rewrite Ht, Hlj, Hlo, !Z.eqb_refl. simpl.
  repeat split; intros Hty; rewrite Hty; tags_differ; rewrite ?Z.eqb_refl;
    apply auto_power_case_matching; congruence.
Qed.

(** X2.  The same on two GPU buffers when the CUDA backend is compiled in:
    the CUDA inner loop of the element type runs, and the outgoing status is
    what [oskar_device_check_error] makes of the zero status. *)
Theorem auto_power_gpu_runs_matching_kernel num_sources jones out :
  oskar_mem_type out = oskar_mem_type jones ->
  oskar_mem_location jones = OSKAR_GPU ->
  oskar_mem_location out = OSKAR_GPU ->
  let run kernel :=
    (oskar_mem_set_data out
       (kernel num_sources (oskar_mem_data jones) (oskar_mem_data out)),
     oskar_device_check_error 0) in
  (oskar_mem_type jones = OSKAR_SINGLE_COMPLEX_MATRIX ->
   oskar_evaluate_auto_power true num_sources jones out 0
   = run oskar_evaluate_auto_power_cuda_f)
  /\ (oskar_mem_type jones = OSKAR_DOUBLE_COMPLEX_MATRIX ->
      oskar_evaluate_auto_power true num_sources jones out 0
      = run oskar_evaluate_auto_power_cuda_d)
  /\ (oskar_mem_type jones = OSKAR_SINGLE_COMPLEX ->
      oskar_evaluate_auto_power true num_sources jones out 0
      = run oskar_evaluate_auto_power_scalar_cuda_f)
  /\ (oskar_mem_type jones = OSKAR_DOUBLE_COMPLEX ->
      oskar_evaluate_auto_power true num_sources jones out 0
      = run oskar_evaluate_auto_power_scalar_cuda_d).
Proof.
  intros Ht Hlj Hlo run. unfold oskar_evaluate_auto_power.
  change (negb (0 =? 0)) with false. cbv iota.
  rewrite Ht, Hlj, Hlo, !Z.eqb_refl, gpu_is_not_cpu. cbn [negb].
  repeat split; intros Hty; rewrite Hty; tags_differ; rewrite ?Z.eqb_refl;
    rewrite auto_power_case_matching by congruence; reflexivity.
Qed.

(** X3.  A location that is neither the CPU nor the GPU is not reported:
    entered with status zero on two buffers agreeing in element type and in
    such a location, the call returns with the output buffer as it was and
    the status still zero, whatever the element type. *)
Theorem auto_power_unknown_location_is_silent have_cuda num_sources jones out :
  oskar_mem_type out = oskar_mem_type jones ->
  oskar_mem_location out = oskar_mem_location jones ->
  oskar_mem_location jones <> OSKAR_CPU ->
  oskar_mem_location jones <> OSKAR_GPU ->
  oskar_evaluate_auto_power have_cuda num_sources jones out 0 = (out, 0).
Proof.
  intros Ht Hl Hcpu Hgpu. unfold oskar_evaluate_auto_power. simpl.
  rewrite Ht, Hl, !Z.eqb_refl. simpl.
  destruct (Z.eqb_spec (oskar_mem_location jones) OSKAR_CPU); [contradiction | idtac].
  destruct (Z.eqb_spec (oskar_mem_location jones) OSKAR_GPU); [contradiction | idtac].
  reflexivity.
Qed.

Lemma auto_power_case_tags ty kernel num_sources jones out status :
  oskar_mem_type (fst (auto_power_case ty kernel num_sources jones out status))
  = oskar_mem_type out
  /\ oskar_mem_location (fst (auto_power_case ty kernel num_sources jones out status))
     = oskar_mem_location out.
Proof. split; reflexivity. Qed.

(** X4.  Whatever the arguments, the call never changes the element-type
    tag or the location tag of the output buffer. *)
Theorem auto_power_keeps_output_tags have_cuda num_sources jones out status :
  oskar_mem_type (fst (oskar_evaluate_auto_power have_cuda num_sources jones out status))
  = oskar_mem_type out
  /\ oskar_mem_location
       (fst (oskar_evaluate_auto_power have_cuda num_sources jones out status))
     = oskar_mem_location out.
Proof.
  unfold oskar_evaluate_auto_power.
  repeat match goal with
         | |- context [if ?b then _ else _] => destruct b
         | |- context [let '(_, _) := ?p in _] =>
           match p with
           | auto_power_case ?ty ?k ?n ?j ?o ?s =>
             pose proof (auto_power_case_tags ty k n j o s);
             destruct (auto_power_case ty k n j o s)
           end
         end; simpl in *; tauto.
Qed.

End AutoPowerDispatch.

(** ** oskar_sky_override_polarisation: what is written, and what is not *)

Section OverridePolarisationLoop.
Context {G : OskarGlobal} {L : CRuntime}.
Local Open Scope nat_scope.
Implicit Types (i k n : nat).


Lemma override_polarisation_step_spec store mean std mean_angle std_angle
    (I_ Q_ U_ : list elem) (rng : rand_state) i :
  exists pol_fraction pol_angle_rad rng',
    clamped pol_fraction
    /\ override_polarisation_step store mean std mean_angle std_angle I_
         (Q_, U_, rng) i
       = (<[i := ElemReal (store (pol_fraction * elem_real_at I_ i
                                  * libm_cos pol_angle_rad)%float)]> Q_,
          <[i := ElemReal (store (pol_fraction * elem_real_at I_ i
                                  * libm_sin pol_angle_rad)%float)]> U_,
          rng').
Proof.
  unfold override_polarisation_step.
  destruct (oskar_random_gaussian rng) as [[g1 g2] rng'].
  set (pf := (g1 * std + mean)%float).
  eexists _, _, rng'. split; [idtac | reflexivity].
  unfold clamped.
  destruct (1 <? pf)%float eqn:Hhi.
  - split; reflexivity.
  - destruct (pf <? 0)%float eqn:Hlo.
    + split; reflexivity.
    + split; assumption.
Qed.

(** The state of the loop after [n] passes. *)
Lemma override_polarisation_loop_S store mean std mean_angle std_angle
    (n : nat) (I_ Q_ U_ : list elem) (rng : rand_state) :
  fold_left (override_polarisation_step store mean std mean_angle std_angle I_)
    (seq 0 (S n)) (Q_, U_, rng)
  = override_polarisation_step store mean std mean_angle std_angle I_
      (fold_left (override_polarisation_step store mean std mean_angle std_angle I_)
         (seq 0 n) (Q_, U_, rng)) n.
Proof. rewrite seq_S, fold_left_app. reflexivity. Qed.

Lemma override_polarisation_loop_spec store mean std mean_angle std_angle
    (n : nat) (I_ Q_ U_ : list elem) (rng : rand_state) :
  let '(Q', U', _) :=
    fold_left (override_polarisation_step store mean std mean_angle std_angle I_)
      (seq 0 n) (Q_, U_, rng) in
  length Q' = length Q_ /\ length U' = length U_
  /\ (forall k, n <= k -> Q' !! k = Q_ !! k /\ U' !! k = U_ !! k)
  /\ (forall i, i < n ->
        exists pol_fraction pol_angle_rad,
          clamped pol_fraction
          /\ (i < length Q_ ->
              Q' !! i = Some (ElemReal (store (pol_fraction * elem_real_at I_ i
                                               * libm_cos pol_angle_rad)%float)))
          /\ (i < length U_ ->
              U' !! i = Some (ElemReal (store (pol_fraction * elem_real_at I_ i
                                               * libm_sin pol_angle_rad)%float)))).
Proof.
  induction n as [ | n IH].
  - simpl. repeat split; try reflexivity. intros i Hi. lia.
  - rewrite override_polarisation_loop_S.
    destruct (fold_left _ (seq 0 n) (Q_, U_, rng)) as [[Qn Un] rn].
    destruct IH as (HlQ & HlU & Hrest & Hdone).
    destruct (override_polarisation_step_spec store mean std mean_angle
                std_angle I_ Qn Un rn n) as (pf & a & rng' & Hpf & ->).
    split; [rewrite length_insert; exact HlQ | idtac].
    split; [rewrite length_insert; exact HlU | idtac].
    split.
    + intros k Hk. rewrite !list_lookup_insert_ne by lia. apply Hrest. lia.
    + intros i Hi. destruct (decide (i = n)) as [-> | Hne].
      * exists pf, a. split; [exact Hpf | split]; intros Hlen;
          apply list_lookup_insert_eq; lia.
      * destruct (Hdone i ltac:(lia)) as (pf' & a' & Hpf' & HQ & HU).
        exists pf', a'. split; [exact Hpf' | split]; intros Hlen;
          rewrite list_lookup_insert_ne by lia; auto.
Qed.

End OverridePolarisationLoop.

Section OverridePolarisationMore.
Context {G : OskarGlobal} {L : CRuntime}.
Implicit Types (sky : oskar_Sky) (status seed : Z) (rng : rand_state).




(** X6.  Entered with status zero and a mean polarisation fraction that is
    not below zero: a sky model that is not in CPU memory gives the
    bad-location error with the sky model and the random generator
    untouched; a sky model in CPU memory whose precision is neither double
    nor single gives the bad-data-type error with the sky model untouched,
    but the generator has been re-seeded by then. *)
Theorem override_polarisation_errors sky
    (mean std mean_angle std_angle : float) seed rng :
  (mean <? 0)%float = false ->
  (oskar_sky_mem_location sky <> OSKAR_CPU ->
   oskar_sky_override_polarisation (Some sky) mean std mean_angle std_angle
     seed (Some 0) rng
   = (Some sky, Some OSKAR_ERR_BAD_LOCATION, rng))
  /\ (oskar_sky_mem_location sky = OSKAR_CPU ->
      oskar_sky_precision sky <> OSKAR_DOUBLE ->
      oskar_sky_precision sky <> OSKAR_SINGLE ->
      oskar_sky_override_polarisation (Some sky) mean std mean_angle std_angle
        seed (Some 0) rng
      = (Some sky, Some OSKAR_ERR_BAD_DATA_TYPE, srand seed)).
Proof.
  intros Hmean. unfold oskar_sky_override_polarisation. simpl. rewrite Hmean.
  split.
  - intros Hloc.
    destruct (Z.eqb_spec (oskar_sky_mem_location sky) OSKAR_CPU);
      [contradiction | reflexivity].
  - intros -> Hd Hs. rewrite Z.eqb_refl.
    destruct (Z.eqb_spec (oskar_sky_precision sky) OSKAR_DOUBLE);
      [contradiction | idtac].
    destruct (Z.eqb_spec (oskar_sky_precision sky) OSKAR_SINGLE);
      [contradiction | reflexivity].
Qed.

(** X7.  On a sky model in CPU memory, entered with status zero and a mean
    polarisation fraction that is not below zero, the outcome (the new sky
    model, the status and the generator state left behind) does not depend
    on the state the random generator was in: the call re-seeds it. *)
Theorem override_polarisation_reseeds sky
    (mean std mean_angle std_angle : float) seed rng1 rng2 :
  (mean <? 0)%float = false ->
  oskar_sky_mem_location sky = OSKAR_CPU ->
  oskar_sky_override_polarisation (Some sky) mean std mean_angle std_angle
    seed (Some 0) rng1
  = oskar_sky_override_polarisation (Some sky) mean std mean_angle std_angle
      seed (Some 0) rng2.
Proof.
  intros Hmean Hloc. unfold oskar_sky_override_polarisation. simpl.
  rewrite Hmean, Hloc, Z.eqb_refl. reflexivity.
Qed.

(** X8.  On a double-precision sky model in CPU memory whose I, Q and U
    arrays are tagged double, entered with status zero and a mean
    polarisation fraction that is not below zero, the status stays zero and
    every source i below [num_sources] that the Q and U arrays have room for
    gets Q = f I cos(a) and U = f I sin(a), for one angle a and one
    polarisation fraction f per source that is neither above 1 nor below
    0. *)
Theorem override_polarisation_double_values sky
    (mean std mean_angle std_angle : float) seed rng (i : nat) :
  (mean <? 0)%float = false ->
  oskar_sky_mem_location sky = OSKAR_CPU ->
  oskar_sky_precision sky = OSKAR_DOUBLE ->
  oskar_mem_type (oskar_sky_I sky) = OSKAR_DOUBLE ->
  oskar_mem_type (oskar_sky_Q sky) = OSKAR_DOUBLE ->
  oskar_mem_type (oskar_sky_U sky) = OSKAR_DOUBLE ->
  (i < Z.to_nat (oskar_sky_num_sources sky))%nat ->
  (i < oskar_mem_length (oskar_sky_Q sky))%nat ->
  (i < oskar_mem_length (oskar_sky_U sky))%nat ->
  exists sky' rng' pol_fraction pol_angle_rad,
    oskar_sky_override_polarisation (Some sky) mean std mean_angle std_angle
      seed (Some 0) rng
    = (Some sky', Some 0, rng')
    /\ clamped pol_fraction
    /\ oskar_mem_data (oskar_sky_Q sky') !! i
       = Some (ElemReal (pol_fraction
                         * elem_real_at (oskar_mem_data (oskar_sky_I sky)) i
                         * libm_cos pol_angle_rad)%float)
    /\ oskar_mem_data (oskar_sky_U sky') !! i
       = Some (ElemReal (pol_fraction
                         * elem_real_at (oskar_mem_data (oskar_sky_I sky)) i
                         * libm_sin pol_angle_rad)%float).
Proof.
  intros Hmean Hloc Hprec HI HQ HU Hi HiQ HiU.
  unfold oskar_sky_override_polarisation. simpl.
  rewrite Hmean, Hloc, Hprec, !Z.eqb_refl.
  unfold override_polarisation_branch, oskar_mem_accessor,
    override_polarisation_loop.
  rewrite HI, HQ, HU, !Z.eqb_refl.
  pose proof (override_polarisation_loop_spec (fun x => x) mean std mean_angle
                std_angle (Z.to_nat (oskar_sky_num_sources sky))
                (oskar_mem_data (oskar_sky_I sky))
                (oskar_mem_data (oskar_sky_Q sky))
                (oskar_mem_data (oskar_sky_U sky)) (srand seed)) as H.
  destruct (fold_left _ _ _) as [[Q' U'] rng'].
  destruct H as (_ & _ & _ & Hdone).
  destruct (Hdone i Hi) as (pf & a & Hpf & HQ' & HU').
  eexists _, rng', pf, a. split; [reflexivity | idtac].
  split; [exact Hpf | split]; simpl; [apply HQ' | apply HU']; assumption.
Qed.

End OverridePolarisationMore.

(** ** oskar_mem_load_ascii: columns, rows and lengths *)

(** Tries a tactic on the positions 0..7 of the list of type tags. *)
Ltac at_tag_index tac :=
  first [ tac 0%nat | tac 1%nat | tac 2%nat | tac 3%nat
        | tac 4%nat | tac 5%nat | tac 6%nat | tac 7%nat ].

(** Decides every test of one named type tag against another. *)
Ltac decide_tags :=
  repeat match goal with
         | |- context [(?x =? ?x)] => rewrite (Z.eqb_refl x)
         | |- context [(?x =? ?y)] =>
           at_tag_index ltac:(fun i =>
             at_tag_index ltac:(fun j =>
               rewrite (type_tag_ne i j x y eq_refl eq_refl ltac:(discriminate))))
         end.

Section LoadAsciiColumns.
Context {G : OskarGlobal} {M : MemOps} {L : CRuntime} {F : AsciiIO}.
Local Open Scope nat_scope.

(** X9.  [store_data] and the column count of the set-up agree: for each
    of the seven element types it has a case for, [store_data] moves the
    column counter on by exactly the number of columns counted for the type
    (1 for the real and integer types, 2 for the complex ones, 8 for the
    matrix ones), leaves the status and the length of the array alone and
    changes no row but [r]; for any other type it reports the bad-data-type
    error and touches neither the array nor the counter. *)
Theorem store_data_column_accounting (data : list elem) (type : Z) (r c : nat)
    (row_data : list float) (status : Z) :
  (type ∈ loadable_types ->
   (store_data data type r c row_data status).1.2 = c + columns_of_type type
   /\ (store_data data type r c row_data status).2 = status
   /\ length (store_data data type r c row_data status).1.1 = length data
   /\ (forall k, k <> r ->
         (store_data data type r c row_data status).1.1 !! k = data !! k))
  /\ (type ∉ loadable_types ->
      store_data data type r c row_data status
      = (data, c, OSKAR_ERR_BAD_DATA_TYPE)).
Proof.
  split.
  - intros Hin. unfold loadable_types in Hin.
    repeat (apply elem_of_cons in Hin as [-> | Hin]);
      [idtac | idtac | idtac | idtac | idtac | idtac | idtac | inversion Hin];
      unfold store_data, columns_of_type, oskar_mem_type_is_complex,
        oskar_mem_type_is_matrix, tag_in; simpl existsb;
      decide_tags; simpl;
      (split; [reflexivity | split; [reflexivity | split;
         [apply length_insert | intros k Hk; apply list_lookup_insert_ne; congruence]]]).
  - intros Hnot. unfold loadable_types in Hnot.
    repeat (apply not_elem_of_cons in Hnot as [? Hnot]).
    unfold store_data.
    repeat match goal with
           | Hne : type <> ?t |- context [(type =? ?t)%Z] =>
             rewrite (proj2 (Z.eqb_neq type t) Hne)
           end.
    reflexivity.
Qed.

(** A pending error stops the set-up and the loop over the lines. *)
Lemma set_up_unsafe (args : list (oskar_Mem * string)) (s : setup_state) :
  su_status s <> 0%Z -> set_up_handles_and_defaults args s = s.
Proof.
  intros Hs. destruct args as [ | [mem def] args]; simpl; [reflexivity | idtac].
  destruct (Z.eqb_spec (su_status s) 0); [contradiction | reflexivity].
Qed.

Lemma load_lines_unsafe num_cols_min num_cols_max row_defaults lines
    mem_handle row_index (status : Z) :
  status <> 0%Z ->
  load_lines num_cols_min num_cols_max row_defaults lines mem_handle
    row_index status
  = (mem_handle, row_index, status).
Proof.
  intros Hs. destruct lines as [ | line lines]; simpl; [reflexivity | idtac].
  destruct (Z.eqb_spec status 0); [contradiction | reflexivity].
Qed.

(** Every line adds at most one row. *)
Lemma load_lines_row_count num_cols_min num_cols_max row_defaults lines
    mem_handle row_index (status : Z) :
  row_index
  <= (load_lines num_cols_min num_cols_max row_defaults lines mem_handle
        row_index status).1.2
  <= row_index + length lines.
Proof.
  revert mem_handle row_index status.
  induction lines as [ | line lines IH]; intros mem_handle row_index status;
    simpl; [lia | idtac].
  destruct (negb (status =? 0)%Z); simpl; [lia | idtac].
  destruct (_ <? num_cols_min).
  - specialize (IH mem_handle row_index status). lia.
  - destruct (store_row mem_handle row_index 0 _ status) as [[hs c] st].
    specialize (IH hs (S row_index) st). lia.
Qed.

Lemma load_ascii_row_count_le (filename : option string) (num_mem : nat)
    (status : option Z) (args : list (oskar_Mem * string)) :
  (oskar_mem_load_ascii filename num_mem status args).1.1
  <= match filename with
     | Some name =>
       match fopen_read name with Some lines => length lines | None => 0 end
     | None => 0
     end.
Proof.
  unfold oskar_mem_load_ascii.
  destruct filename as [name | ]; [idtac | simpl; lia].
  destruct num_mem as [ | n]; [simpl; lia | idtac].
  destruct status as [status_ | ]; [idtac | simpl; lia].
  destruct (negb (status_ =? 0)%Z); [simpl; lia | idtac].
  destruct (fopen_read name) as [lines | ]; [idtac | simpl; lia].
  match goal with
  | |- context [load_lines ?a ?b ?c ?d ?e ?f ?g] =>
    pose proof (load_lines_row_count a b c d e f g) as H;
      destruct (load_lines a b c d e f g) as [[hs rows] st]
  end.
  simpl in H.
  destruct (alloc_ok (S n)).
  - destruct (resize_all hs rows st) as [hs' st'].
    destruct (copy_back _ hs' st') as [loaded st'']. simpl. lia.
  - simpl. lia.
Qed.

(** X10.  The row count the loader returns is at most the number of lines
    of the file.  It is zero when the file cannot be opened, when the file
    name is null, [num_mem] is zero or the status pointer is null, and
    when the call is entered with an error pending. *)
Theorem load_ascii_row_count (filename : option string) (num_mem : nat)
    (status : option Z) (args : list (oskar_Mem * string)) :
  (forall name lines,
     filename = Some name -> fopen_read name = Some lines ->
     (oskar_mem_load_ascii filename num_mem status args).1.1 <= length lines)
  /\ (forall name,
        filename = Some name -> fopen_read name = None ->
        (oskar_mem_load_ascii filename num_mem status args).1.1 = 0)
  /\ (filename = None \/ num_mem = 0 \/ status = None ->
      (oskar_mem_load_ascii filename num_mem status args).1.1 = 0)
  /\ (forall status_,
        status = Some status_ -> status_ <> 0%Z ->
        (oskar_mem_load_ascii filename num_mem status args).1.1 = 0).
Proof.
  pose proof (load_ascii_row_count_le filename num_mem status args) as Hle.
  split; [idtac | split; [idtac | split]].
  - intros name lines -> Hopen. rewrite Hopen in Hle. exact Hle.
  - intros name -> Hopen. rewrite Hopen in Hle. lia.
  - intros H. unfold oskar_mem_load_ascii.
    destruct filename; [idtac | reflexivity].
    destruct num_mem; [reflexivity | idtac].
    destruct status; [idtac | reflexivity].
    destruct H as [H | [H | H]]; discriminate.
  - intros status_ -> Hs. unfold oskar_mem_load_ascii.
    destruct filename; [idtac | reflexivity].
    destruct num_mem; [reflexivity | idtac].
    destruct (Z.eqb_spec status_ 0); [contradiction | reflexivity].
Qed.

(** X11.  When the file name is null, [num_mem] is zero or the status
    pointer is null, the loader returns 0 with every buffer as it was and
    the invalid-argument error stored through the status pointer if there is
    one; entered with status zero on a file that cannot be opened it returns
    0 with every buffer as it was and the file-I/O error. *)
Theorem load_ascii_rejected (filename : option string) (num_mem : nat)
    (status : option Z) (args : list (oskar_Mem * string)) :
  (filename = None \/ num_mem = 0 \/ status = None ->
   oskar_mem_load_ascii filename num_mem status args
   = (0, map fst args, oskar_set_invalid_argument status))
  /\ (forall name, filename = Some name -> num_mem <> 0 -> status = Some 0%Z ->
        fopen_read name = None ->
        oskar_mem_load_ascii filename num_mem status args
        = (0, map fst args, Some OSKAR_ERR_FILE_IO)).
Proof.
  split.
  - intros H. unfold oskar_mem_load_ascii.
    destruct filename; [idtac | reflexivity].
    destruct num_mem; [reflexivity | idtac].
    destruct status; [idtac | reflexivity].
    destruct H as [H | [H | H]]; discriminate.
  - intros name -> Hn -> Hopen. unfold oskar_mem_load_ascii.
    destruct num_mem; [contradiction | idtac]. simpl. rewrite Hopen. reflexivity.
Qed.

End LoadAsciiColumns.

Section LoadAsciiSetUp.
Context {G : OskarGlobal} {M : MemOps} {L : CRuntime} {F : AsciiIO}.
Local Open Scope nat_scope.

Lemma columns_of_type_pos (ty : Z) : 1 <= columns_of_type ty.
Proof.
  unfold columns_of_type.
  destruct (oskar_mem_type_is_complex ty), (oskar_mem_type_is_matrix ty); lia.
Qed.

Lemma set_up_status (args : list (oskar_Mem * string)) (s : setup_state) :
  su_status (set_up_handles_and_defaults args s) = 0%Z -> su_status s = 0%Z.
Proof.
  intros H. destruct (Z.eq_dec (su_status s) 0%Z) as [E | E]; [exact E | idtac].
  rewrite set_up_unsafe in H by exact E. exact H.
Qed.

(** One pass of the set-up loop on an array in CPU memory, when the
    set-up as a whole succeeds. *)
Lemma set_up_cons_cpu (mem : oskar_Mem) (def : string)
    (args : list (oskar_Mem * string)) (s : setup_state) :
  on_cpu (mem, def) ->
  su_status (set_up_handles_and_defaults ((mem, def) :: args) s) = 0%Z ->
  let n := columns_of_type (oskar_mem_type mem) in
  let k := defaults_read (mem, def) in
  (k = 0 \/ k = n)
  /\ (k = 0 -> su_num_cols_min s + n = su_num_cols_max s + n)
  /\ set_up_handles_and_defaults ((mem, def) :: args) s
     = set_up_handles_and_defaults args
         {| su_mem_handle := su_mem_handle s ++ [mem];
            su_row_defaults :=
              su_row_defaults s
              ++ take n (oskar_string_to_array_d def n)
              ++ replicate (n - k) 0%float;
            su_num_cols_min :=
              if k =? 0 then su_num_cols_min s + n else su_num_cols_min s;
            su_num_cols_max := su_num_cols_max s + n;
            su_col_start := su_col_start s + n;
            su_buffer_size :=
              if su_buffer_size s <? 1 + String.length def
              then 1 + String.length def else su_buffer_size s;
            su_status := 0%Z |}.
Proof.
  intros Hcpu Hfinal n k.
  pose proof (set_up_status _ _ Hfinal) as Hs.
  revert Hfinal. simpl set_up_handles_and_defaults.
  unfold on_cpu in Hcpu. simpl in Hcpu.
  rewrite Hs, Hcpu, !Z.eqb_refl. cbn [negb]. rewrite ?Z.eqb_refl. cbn [negb].
  match goal with
  | |- context [alloc_ok (su_num_cols_max s + ?e)] =>
    replace e with n
      by (unfold n, columns_of_type, oskar_mem_is_complex, oskar_mem_is_matrix;
          destruct (oskar_mem_type_is_complex _), (oskar_mem_type_is_matrix _);
          reflexivity)
  end.
  destruct (alloc_ok (su_num_cols_max s + n)); cbn [negb];
    [idtac | intros Hfinal; simpl in Hfinal;
             exfalso; exact (alloc_failure_nonzero Hfinal)].
  set (grow := su_buffer_size s <? S (String.length def)).
  set (bs := if grow then S (String.length def) else su_buffer_size s).
  destruct (grow && negb (alloc_ok bs));
    [intros Hfinal; simpl in Hfinal; exfalso;
     exact (alloc_failure_nonzero Hfinal) | idtac].
  change (length (take n (oskar_string_to_array_d def n))) with k.
  intros Hfinal. pose proof (set_up_status _ _ Hfinal) as Hst. simpl in Hst.
  destruct (Nat.eqb_spec k 0) as [Hk0 | Hk0].
  - destruct (Nat.eqb_spec (su_num_cols_min s + n) (su_num_cols_max s + n))
      as [Hmm | Hmm]; cbn [negb] in Hst.
    + split; [left; exact Hk0 | split; [intros _; exact Hmm | idtac]].
      reflexivity.
    + exfalso. revert Hst. apply error_code_nonzero.
      unfold oskar_error_codes. set_solver.
  - destruct (Nat.eqb_spec k n) as [Hkn | Hkn]; cbn [negb] in Hst.
    + split; [right; exact Hkn | split; [intros Hk; contradiction | idtac]].
      reflexivity.
    + exfalso. revert Hst. apply error_code_nonzero.
      unfold oskar_error_codes. set_solver.
Qed.

Lemma columns_of_args_app (xs ys : list (oskar_Mem * string)) :
  columns_of_args (xs ++ ys) = columns_of_args xs + columns_of_args ys.
Proof. induction xs as [ | x xs IH]; simpl; [reflexivity | rewrite IH; lia]. Qed.

Lemma defaults_read_le (arg : oskar_Mem * string) :
  defaults_read arg <= columns_of_type (oskar_mem_type arg.1).
Proof. unfold defaults_read. rewrite length_take. lia. Qed.

Lemma set_up_cpu_spec (args : list (oskar_Mem * string)) (s : setup_state) :
  Forall on_cpu args ->
  su_num_cols_min s <= su_num_cols_max s ->
  su_status (set_up_handles_and_defaults args s) = 0%Z ->
  let f := set_up_handles_and_defaults args s in
  su_mem_handle f = su_mem_handle s ++ map fst args
  /\ su_num_cols_max f = su_num_cols_max s + columns_of_args args
  /\ length (su_row_defaults f) = length (su_row_defaults s) + columns_of_args args
  /\ exists req opt,
       args = req ++ opt
       /\ Forall (fun arg => defaults_read arg = 0) req
       /\ Forall (fun arg => defaults_read arg
                             = columns_of_type (oskar_mem_type arg.1)) opt
       /\ su_num_cols_min f = su_num_cols_min s + columns_of_args req
       /\ (su_num_cols_min s <> su_num_cols_max s -> req = []).
Proof.
  revert s. induction args as [ | [mem def] args IH]; intros s Hcpu Hle Hfinal.
  - simpl. rewrite app_nil_r. repeat split; try lia.
    exists [], []. simpl. repeat split; auto; lia.
  - apply Forall_cons in Hcpu as [Hmem Hcpu].
    destruct (set_up_cons_cpu mem def args s Hmem Hfinal) as (Hk & Hreq & Hstep).
    pose proof (columns_of_type_pos (oskar_mem_type mem)) as Hpos.
    pose proof (defaults_read_le (mem, def)) as Hkle. simpl in Hkle.
    cbv zeta. rewrite Hstep in Hfinal |- *.
    match goal with
    | |- context [set_up_handles_and_defaults args ?s1] => set (s' := s1) in *
    end.
    assert (Hle' : su_num_cols_min s' <= su_num_cols_max s').
    { unfold s'. simpl. destruct (_ =? 0); lia. }
    destruct (IH s' Hcpu Hle' Hfinal) as (Hh & Hmax & Hlen & req & opt & -> & Hr & Ho & Hmin & Hnone).
    split; [rewrite Hh; unfold s'; simpl; rewrite <- app_assoc; reflexivity | idtac].
    split; [rewrite Hmax; unfold s'; simpl; lia | idtac].
    split.
    { rewrite Hlen. unfold s'. simpl.
      rewrite !length_app, length_replicate.
      change (length (take _ (oskar_string_to_array_d def _)))
        with (defaults_read (mem, def)). lia. }
    destruct Hk as [Hk | Hk].
    + exists ((mem, def) :: req), opt. split; [reflexivity | idtac].
      split; [constructor; assumption | split; [exact Ho | split]].
      * rewrite Hmin. unfold s'. simpl. rewrite Hk. simpl. lia.
      * intros Hne. specialize (Hreq Hk). lia.
    + assert (Hnil : req = []).
      { apply Hnone. unfold s'. simpl.
        destruct (Nat.eqb_spec (defaults_read (mem, def)) 0); lia. }
      subst req. exists [], ((mem, def) :: opt). split; [reflexivity | idtac].
      split; [constructor | split; [constructor; assumption | split]].
      * rewrite Hmin. unfold s'. simpl.
        destruct (Nat.eqb_spec (defaults_read (mem, def)) 0); lia.
      * intros _. reflexivity.
Qed.

(** X12.  When the set-up of the loader succeeds on arrays in CPU memory,
    every default string supplied either no value or exactly as many values
    as its array has columns, and the arrays without defaults all come
    before the arrays with defaults.  The handles are then the arrays
    themselves, the maximum column count and the length of the default row
    are the columns of all arrays, and the minimum column count is the
    columns of the arrays without defaults. *)
Theorem set_up_required_columns_first (args : list (oskar_Mem * string)) :
  Forall on_cpu args ->
  let f :=
    set_up_handles_and_defaults args
      {| su_mem_handle := []; su_row_defaults := [];
         su_num_cols_min := 0; su_num_cols_max := 0;
         su_col_start := 0; su_buffer_size := 0; su_status := 0%Z |} in
  su_status f = 0%Z ->
  su_mem_handle f = map fst args
  /\ su_num_cols_max f = columns_of_args args
  /\ length (su_row_defaults f) = columns_of_args args
  /\ exists req opt,
       args = req ++ opt
       /\ Forall (fun arg => defaults_read arg = 0) req
       /\ Forall (fun arg => defaults_read arg
                             = columns_of_type (oskar_mem_type arg.1)) opt
       /\ su_num_cols_min f = columns_of_args req.
Proof.
  intros Hcpu f Hfinal.
  destruct (set_up_cpu_spec args
              {| su_mem_handle := []; su_row_defaults := [];
                 su_num_cols_min := 0; su_num_cols_max := 0;
                 su_col_start := 0; su_buffer_size := 0; su_status := 0%Z |}
              Hcpu ltac:(simpl; lia) Hfinal)
    as (Hh & Hmax & Hlen & req & opt & Hargs & Hr & Ho & Hmin & _).
  split; [exact Hh | split; [exact Hmax | split; [exact Hlen | idtac]]].
  exists req, opt. repeat split; assumption.
Qed.

End LoadAsciiSetUp.

Section LoadAsciiSuccess.
Context {G : OskarGlobal} {M : MemOps} {L : CRuntime} {F : AsciiIO}.
Local Open Scope nat_scope.

Lemma same_tags_refl (mem : oskar_Mem) : same_tags mem mem.
Proof. split; reflexivity. Qed.

Lemma same_tags_trans (a b c : oskar_Mem) :
  same_tags a b -> same_tags b c -> same_tags a c.
Proof. unfold same_tags. intros [? ?] [? ?]. split; congruence. Qed.

Lemma Forall2_same_tags_refl (hs : list oskar_Mem) : Forall2 same_tags hs hs.
Proof. induction hs; constructor; [apply same_tags_refl | assumption]. Qed.

Lemma Forall2_same_tags_trans (xs ys zs : list oskar_Mem) :
  Forall2 same_tags xs ys -> Forall2 same_tags ys zs -> Forall2 same_tags xs zs.
Proof.
  intros H. revert zs. induction H as [ | x y xs ys Hxy _ IH]; intros zs Hz.
  - inversion Hz. constructor.
  - inversion Hz; subst. constructor; [eapply same_tags_trans; eassumption | auto].
Qed.

Lemma realloc_same_tags (mem : oskar_Mem) (n : nat) (status : Z) :
  same_tags mem (fst (oskar_mem_realloc mem n status)).
Proof.
  destruct (realloc_cases mem n status) as [-> | [-> | (_ & _ & ->)]];
    split; reflexivity.
Qed.

(** A resize that returns status zero was entered with status zero and
    left the requested length. *)
Lemma realloc_ok (mem : oskar_Mem) (n : nat) (status : Z) :
  snd (oskar_mem_realloc mem n status) = 0%Z ->
  status = 0%Z /\ oskar_mem_length (fst (oskar_mem_realloc mem n status)) = n.
Proof.
  unfold oskar_mem_realloc.
  destruct (Z.eqb_spec status 0) as [-> | Hs]; simpl; [idtac | intros; contradiction].
  destruct (Nat.eqb_spec n (oskar_mem_length mem)) as [-> | Hn]; simpl;
    [intros _; split; reflexivity | idtac].
  destruct (alloc_ok n); simpl.
  - intros _. split; [reflexivity | idtac]. unfold oskar_mem_length. simpl.
    rewrite length_app, length_take, length_replicate.
    unfold oskar_mem_length. lia.
  - intros H. exfalso. exact (alloc_failure_nonzero H).
Qed.

Lemma resize_all_ok (mem_handle : list oskar_Mem) (n : nat) (status : Z) :
  Forall2 same_tags mem_handle (resize_all mem_handle n status).1
  /\ ((resize_all mem_handle n status).2 = 0%Z ->
      status = 0%Z
      /\ Forall (fun mem => oskar_mem_length mem = n)
           (resize_all mem_handle n status).1).
Proof.
  revert status. induction mem_handle as [ | h hs IH]; intros status; simpl.
  - split; [constructor | intros ->; split; [reflexivity | constructor]].
  - pose proof (realloc_same_tags h n status) as Htag.
    pose proof (realloc_ok h n status) as Hok.
    destruct (oskar_mem_realloc h n status) as [h' st1].
    specialize (IH st1). destruct (resize_all hs n st1) as [hs' st2].
    simpl in *. destruct IH as [IHtag IHok]. split.
    + constructor; assumption.
    + intros ->. destruct (IHok eq_refl) as [-> Hall].
      destruct (Hok eq_refl) as [-> Hlen].
      split; [reflexivity | constructor; assumption].
Qed.

Lemma store_row_same_tags (mem_handle : list oskar_Mem) (row_index col_index : nat)
    (row_data : list float) (status : Z) :
  Forall2 same_tags mem_handle
    (store_row mem_handle row_index col_index row_data status).1.1.
Proof.
  revert col_index status.
  induction mem_handle as [ | h hs IH]; intros col_index status; simpl.
  - constructor.
  - destruct (oskar_mem_length h <=? row_index).
    + pose proof (realloc_same_tags h (row_index + 100) status) as Htag.
      destruct (oskar_mem_realloc h (row_index + 100) status) as [h' st1].
      simpl in Htag. destruct (negb (st1 =? 0)%Z); simpl.
      * constructor; [exact Htag | apply Forall2_same_tags_refl].
      * destruct (store_data _ _ _ _ _ _) as [[data c'] st'].
        specialize (IH c' st').
        destruct (store_row hs row_index c' row_data st') as [[hs' c''] st''].
        simpl in *. constructor; [exact Htag | exact IH].
    + simpl. destruct (store_data _ _ _ _ _ _) as [[data c'] st'].
      specialize (IH c' st').
      destruct (store_row hs row_index c' row_data st') as [[hs' c''] st''].
      simpl in *. constructor; [split; reflexivity | exact IH].
Qed.

Lemma load_lines_same_tags num_cols_min num_cols_max row_defaults lines
    (mem_handle : list oskar_Mem) row_index (status : Z) :
  Forall2 same_tags mem_handle
    (load_lines num_cols_min num_cols_max row_defaults lines mem_handle
       row_index status).1.1.
Proof.
  revert mem_handle row_index status.
  induction lines as [ | line lines IH]; intros mem_handle row_index status;
    simpl; [apply Forall2_same_tags_refl | idtac].
  destruct (negb (status =? 0)%Z); simpl; [apply Forall2_same_tags_refl | idtac].
  destruct (_ <? num_cols_min); [apply IH | idtac].
  match goal with
  | |- context [store_row ?a ?b ?c ?d ?e] =>
    pose proof (store_row_same_tags a b c d e) as Hrow;
      destruct (store_row a b c d e) as [[hs c'] st]
  end.
  simpl in Hrow. eapply Forall2_same_tags_trans; [exact Hrow | apply IH].
Qed.

Lemma load_lines_ok num_cols_min num_cols_max row_defaults lines
    (mem_handle : list oskar_Mem) row_index (status : Z) :
  (load_lines num_cols_min num_cols_max row_defaults lines mem_handle
     row_index status).2 = 0%Z ->
  status = 0%Z.
Proof.
  intros H. destruct (Z.eq_dec status 0%Z) as [E | E]; [exact E | idtac].
  rewrite load_lines_unsafe in H by exact E. exact H.
Qed.

(** Arrays in CPU memory were loaded in place: the last loop hands back
    their handles and leaves the status alone. *)
Lemma copy_back_cpu (mems mem_handle : list oskar_Mem) (status : Z) :
  Forall (fun mem => oskar_mem_location mem = OSKAR_CPU) mems ->
  length mem_handle = length mems ->
  copy_back mems mem_handle status = (mem_handle, status).
Proof.
  revert mem_handle status.
  induction mems as [ | mem mems IH]; intros mem_handle status Hcpu Hlen.
  - destruct mem_handle; [reflexivity | discriminate].
  - destruct mem_handle as [ | h hs]; [discriminate | idtac].
    apply Forall_cons in Hcpu as [Hmem Hcpu]. simpl.
    rewrite Hmem, Z.eqb_refl. simpl.
    rewrite (IH hs status Hcpu) by (simpl in Hlen; lia). reflexivity.
Qed.

Lemma copy_back_cpu_status (mems mem_handle : list oskar_Mem) (status : Z) :
  Forall (fun mem => oskar_mem_location mem = OSKAR_CPU) mems ->
  (copy_back mems mem_handle status).2 = status.
Proof.
  revert mem_handle status.
  induction mems as [ | mem mems IH]; intros mem_handle status Hcpu; simpl;
    [reflexivity | idtac].
  destruct mem_handle as [ | h hs]; [reflexivity | idtac].
  apply Forall_cons in Hcpu as [Hmem Hcpu].
  rewrite Hmem, Z.eqb_refl. simpl.
  specialize (IH hs status Hcpu).
  destruct (copy_back mems hs status) as [ms st]. exact IH.
Qed.

(** X13.  A load into arrays in CPU memory that is entered with status
    zero and returns status zero leaves every array with exactly as many
    elements as the row count it returns, and with the element type and
    location it had. *)
Theorem load_ascii_success_lengths (name : string)
    (args : list (oskar_Mem * string)) (rows : nat) (mems' : list oskar_Mem) :
  Forall on_cpu args ->
  oskar_mem_load_ascii (Some name) (length args) (Some 0%Z) args
  = (rows, mems', Some 0%Z) ->
  Forall2 same_tags (map fst args) mems'
  /\ Forall (fun mem => oskar_mem_length mem = rows) mems'.
Proof.
  intros Hcpu. unfold oskar_mem_load_ascii.
  destruct (length args) as [ | n] eqn:Hn.
  { intros H. inversion H; subst. destruct args; [idtac | discriminate].
    split; constructor. }
  simpl negb. cbv iota.
  destruct (fopen_read name) as [lines | ];
    [idtac | intros H; injection H as _ _ Hst; exfalso; revert Hst;
             apply error_code_nonzero; unfold oskar_error_codes; set_solver].
  rewrite <- Hn, firstn_all.
  assert (Hmems : Forall (fun mem => oskar_mem_location mem = OSKAR_CPU)
                    (map fst args)).
  { clear -Hcpu. induction Hcpu as [ | [m d] args Hm _ IH]; constructor; auto. }
  assert (Htake : take (length args) (map fst args) = map fst args).
  { rewrite <- (length_map fst args). apply firstn_all. }
  assert (Hdrop : drop (length args) (map fst args) = []).
  { apply drop_ge. rewrite length_map. lia. }
  cbv zeta. rewrite Htake, Hdrop.
  set (st0 := if alloc_ok (length args) then 0%Z else OSKAR_ERR_MEMORY_ALLOC_FAILURE).
  set (s := set_up_handles_and_defaults args _).
  set (st1 := if alloc_ok (su_num_cols_max s) then su_status s
              else OSKAR_ERR_MEMORY_ALLOC_FAILURE).
  pose proof (load_lines_same_tags (su_num_cols_min s) (su_num_cols_max s)
                (su_row_defaults s) lines (su_mem_handle s) 0 st1) as Htags.
  pose proof (load_lines_ok (su_num_cols_min s) (su_num_cols_max s)
                (su_row_defaults s) lines (su_mem_handle s) 0 st1) as Hst1.
  destruct (load_lines _ _ _ lines (su_mem_handle s) 0 st1) as [[hs r] st2].
  simpl in Htags, Hst1.
  assert (Hchain : st2 = 0%Z -> alloc_ok (length args) = true
                                /\ su_mem_handle s = map fst args).
  { intros E. specialize (Hst1 E). unfold st1 in Hst1.
    destruct (alloc_ok (su_num_cols_max s));
      [idtac | exfalso; exact (alloc_failure_nonzero Hst1)].
    pose proof (set_up_status _ _ Hst1) as Hst0. simpl in Hst0.
    unfold st0 in Hst0.
    destruct (alloc_ok (length args)) eqn:Hok;
      [idtac | exfalso; exact (alloc_failure_nonzero Hst0)].
    split; [reflexivity | idtac].
    unfold s, st0 in Hst1 |- *.
    pose proof (fun Hle => set_up_cpu_spec args _ Hcpu Hle Hst1) as Hspec.
    simpl in Hspec. destruct (Hspec (Nat.le_refl 0)) as [Hh _]. exact Hh. }
  destruct (alloc_ok (length args)) eqn:Hok.
  - pose proof (resize_all_ok hs r st2) as [Hrtags Hrok].
    destruct (resize_all hs r st2) as [hs' st3]. simpl in Hrtags, Hrok.
    pose proof (copy_back_cpu_status (map fst args) hs' st3 Hmems) as Hcb.
    destruct (copy_back (map fst args) hs' st3) as [loaded st4] eqn:Hcopy.
    simpl in Hcb. subst st4. rewrite app_nil_r. intros H.
    injection H as -> -> Hst3.
    destruct (Hrok Hst3) as [Hst2 Hall].
    destruct (Hchain Hst2) as [_ Hh]. rewrite Hh in Htags.
    assert (Hall_tags : Forall2 same_tags (map fst args) hs')
      by (eapply Forall2_same_tags_trans; eassumption).
    rewrite copy_back_cpu in Hcopy
      by (try assumption; symmetry; exact (Forall2_length _ _ _ Hall_tags)).
    injection Hcopy as <-. split; assumption.
  - intros H. injection H as _ _ Hst2. destruct (Hchain Hst2) as [Hcontra _].
    discriminate Hcontra.
Qed.

End LoadAsciiSuccess.

(** ** oskar_vis_create: what is refused *)

Section VisCreateRefusals.
Context {G : OskarGlobal} {M : MemOps}.

(** X14.  With a status pointer that is there, [oskar_vis_create] never
    looks at the status it is handed: it returns the null handle exactly
    when the amplitude type is not a complex type of known precision or
    the location is neither the GPU nor the CPU; a refused type sets
    [OSKAR_ERR_BAD_DATA_TYPE] whatever the location, a refused location
    with a good type [OSKAR_ERR_BAD_LOCATION], and either overwrites an
    error that was pending. *)
Theorem vis_create_refusals (amp_type location num_channels num_times
    num_stations status_ : Z) :
  let good_type :=
    (oskar_mem_type_is_double amp_type || oskar_mem_type_is_single amp_type)
    && oskar_mem_type_is_complex amp_type in
  let good_location := (location =? OSKAR_GPU) || (location =? OSKAR_CPU) in
  let r := oskar_vis_create amp_type location num_channels num_times
             num_stations (Some status_) in
  (r.1 = None <-> good_type && good_location = false)
  /\ (good_type = false -> r = (None, Some OSKAR_ERR_BAD_DATA_TYPE))
  /\ (good_type = true -> good_location = false ->
      r = (None, Some OSKAR_ERR_BAD_LOCATION)).
Proof.
  cbv zeta. unfold oskar_vis_create.
  replace (negb (location =? OSKAR_GPU) && negb (location =? OSKAR_CPU))
    with (negb ((location =? OSKAR_GPU) || (location =? OSKAR_CPU)))
    by apply negb_orb.
  destruct (oskar_mem_type_is_double amp_type);
    [idtac | destruct (oskar_mem_type_is_single amp_type)];
    destruct (oskar_mem_type_is_complex amp_type);
    destruct ((location =? OSKAR_GPU) || (location =? OSKAR_CPU));
    cbn [negb andb orb fst];
    try match goal with
        | |- context [create_all ?reqs ?st] =>
          destruct (create_all reqs st) as [mems st']
        end;
    cbn [fst]; repeat split; intros; try reflexivity; try discriminate.
Qed.

End VisCreateRefusals.

(** ** oskar_DoubleRange.cpp *)

Section FloatOrder.

(** Comparisons of binary64 numbers, from their specification. *)
Lemma SFcompare_refl (a b : spec_float) (c : comparison) :
  SFcompare a b = Some c -> SFcompare a a = Some Eq.
Proof.
  destruct a as [s | s | | s m e]; destruct b as [s' | s' | | s' m' e'];
    simpl; try discriminate; intros _; try reflexivity.
  all: try (destruct s; reflexivity).
  all: destruct s; rewrite Z.compare_refl, Pos.compare_cont_refl; reflexivity.
Qed.

Lemma leb_refl_l (x y : float) : (x <=? y)%float = true -> (x <=? x)%float = true.
Proof.
  rewrite !leb_spec. unfold SFleb.
  destruct (SFcompare (Prim2SF x) (Prim2SF y)) as [c | ] eqn:E; [idtac | discriminate].
  rewrite (SFcompare_refl _ _ _ E). reflexivity.
Qed.

Lemma SFcompare_refl_r (a b : spec_float) (c : comparison) :
  SFcompare a b = Some c -> SFcompare b b = Some Eq.
Proof.
  destruct a as [s | s | | s m e]; destruct b as [s' | s' | | s' m' e'];
    simpl; try discriminate; intros _; try reflexivity.
  all: try (destruct s'; reflexivity).
  all: destruct s'; rewrite Z.compare_refl, Pos.compare_cont_refl; reflexivity.
Qed.

Lemma leb_refl_r (x y : float) : (x <=? y)%float = true -> (y <=? y)%float = true.
Proof.
  rewrite !leb_spec. unfold SFleb.
  destruct (SFcompare (Prim2SF x) (Prim2SF y)) as [c | ] eqn:E; [idtac | discriminate].
  rewrite (SFcompare_refl_r _ _ _ E). reflexivity.
Qed.

Lemma SFcompare_antisym (a b : spec_float) :
  SFcompare b a = option_map CompOpp (SFcompare a b).
Proof.
  destruct a as [s | s | | s m e]; destruct b as [s' | s' | | s' m' e'];
    simpl; try reflexivity;
    try (destruct s; reflexivity); try (destruct s'; reflexivity);
    try (destruct s, s'; reflexivity).
  destruct s, s'; try reflexivity;
    rewrite (Z.compare_antisym e e');
    destruct (e ?= e')%Z; simpl; try reflexivity;
    rewrite (Pos.compare_cont_antisym m m' Eq); simpl;
    destruct (Pos.compare_cont Eq m m'); reflexivity.
Qed.

Lemma leb_not_gt (x y : float) : (x <=? y)%float = true -> (y <? x)%float = false.
Proof.
  rewrite leb_spec, ltb_spec. unfold SFleb, SFltb.
  rewrite (SFcompare_antisym (Prim2SF x) (Prim2SF y)).
  destruct (SFcompare (Prim2SF x) (Prim2SF y)) as [[ | | ] | ];
    simpl; intros; try reflexivity; discriminate.
Qed.

Lemma SFcompare_le_trans (a b c : spec_float) :
  SFleb a b = true -> SFleb b c = true -> SFleb a c = true.
Proof.
  unfold SFleb.
  destruct a as [s | s | | s m e]; destruct b as [s' | s' | | s' m' e'];
    destruct c as [s'' | s'' | | s'' m'' e'']; simpl;
    try discriminate; try reflexivity;
    try (destruct s; simpl; try discriminate; try reflexivity;
         destruct s'; simpl; try discriminate; try reflexivity;
         destruct s''; simpl; try discriminate; reflexivity);
    try (destruct s; simpl; try discriminate; try reflexivity;
         destruct s'; simpl; try discriminate; reflexivity);
    try (destruct s; simpl; try discriminate; try reflexivity;
         destruct s''; simpl; try discriminate; reflexivity);
    try (destruct s'; simpl; try discriminate; try reflexivity;
         destruct s''; simpl; try discriminate; reflexivity).
  change (Pos.compare_cont Eq m m') with (m ?= m')%positive.
  change (Pos.compare_cont Eq m' m'') with (m' ?= m'')%positive.
  change (Pos.compare_cont Eq m m'') with (m ?= m'')%positive.
  destruct s, s', s''; try discriminate; try reflexivity;
    destruct (Z.compare_spec e e'); destruct (Z.compare_spec e' e'');
    destruct (Z.compare_spec e e''); try lia;
    destruct (Pos.compare_spec m m'); destruct (Pos.compare_spec m' m'');
    destruct (Pos.compare_spec m m''); simpl;
    try discriminate; try reflexivity; intros; lia.
Qed.

Lemma leb_trans (x y z : float) :
  (x <=? y)%float = true -> (y <=? z)%float = true -> (x <=? z)%float = true.
Proof. rewrite !leb_spec. apply SFcompare_le_trans. Qed.

Lemma ltb_leb (x y : float) : (x <? y)%float = true -> (x <=? y)%float = true.
Proof.
  rewrite leb_spec, ltb_spec. unfold SFleb, SFltb.
  destruct (SFcompare (Prim2SF x) (Prim2SF y)) as [[ | | ] | ];
    intros; try reflexivity; discriminate.
Qed.

(** A number above a bound that is not below another is not below that
    other one. *)
Lemma above_max_not_below_min (lo hi d : float) :
  (lo <=? hi)%float = true -> (hi <? d)%float = true -> (d <? lo)%float = false.
Proof.
  intros Hr Hd. destruct (d <? lo)%float eqn:E; [idtac | reflexivity].
  pose proof (leb_trans _ _ _ (ltb_leb _ _ E) Hr) as Hle.
  rewrite (leb_not_gt _ _ Hle) in Hd. discriminate.
Qed.

End FloatOrder.


Section DoubleRangeFacts.
Context {U : SettingsUtility}.

(** What [from_string_] leaves in [value]: the number read when it lies in
    the range, a bound of the range when it lies beyond it, and what was
    there otherwise. *)
Lemma from_string_cases (r : DoubleRange) (value : float) (s : string) :
  let d := (oskar_settings_utility_string_to_double s true).1 in
  let ok := (oskar_settings_utility_string_to_double s true).2 in
  (ok = true /\ DoubleRange_in_range r d
   /\ DoubleRange_from_string_ r value s = (true, d))
  \/ (ok = true /\ (d <? min_ r)%float = true
      /\ DoubleRange_from_string_ r value s = (false, min_ r))
  \/ (ok = true /\ (max_ r <? d)%float = true
      /\ DoubleRange_from_string_ r value s = (false, max_ r))
  \/ ((ok = false \/ ((min_ r <=? d) && (d <=? max_ r))%float = false)
      /\ DoubleRange_from_string_ r value s = (false, value)).
Proof.
  cbv zeta. unfold DoubleRange_from_string_, DoubleRange_in_range.
  destruct (oskar_settings_utility_string_to_double s true) as [d ok].
  cbn [fst snd].
  destruct ok; cbn [negb]; [idtac | right; right; right; auto].
  destruct (min_ r <=? d)%float eqn:Hlo; cbn [andb].
  - destruct (d <=? max_ r)%float eqn:Hhi; [left; auto | idtac].
    destruct (d <? min_ r)%float; [right; left; auto | idtac].
    destruct (max_ r <? d)%float; [right; right; left; auto | idtac].
    right; right; right; auto.
  - destruct (d <? min_ r)%float; [right; left; auto | idtac].
    destruct (max_ r <? d)%float; [right; right; left; auto | idtac].
    right; right; right; auto.
Qed.

Lemma from_string_in_range (r : DoubleRange) (value : float) (s : string) :
  (min_ r <=? max_ r)%float = true ->
  DoubleRange_in_range r value ->
  DoubleRange_in_range r (DoubleRange_from_string_ r value s).2.
Proof.
  intros Hr Hv.
  destruct (from_string_cases r value s)
    as [(_ & Hd & ->) | [(_ & _ & ->) | [(_ & _ & ->) | (_ & ->)]]];
    cbn [snd]; try assumption.
  - split; [exact (leb_refl_l _ _ Hr) | exact Hr].
  - split; [exact Hr | exact (leb_refl_r _ _ Hr)].
Qed.

Lemma from_string_below (r : DoubleRange) (value d : float) (s : string) :
  oskar_settings_utility_string_to_double s true = (d, true) ->
  (d <? min_ r)%float = true ->
  DoubleRange_from_string_ r value s = (false, min_ r).
Proof.
  intros Hparse Hlt. unfold DoubleRange_from_string_. rewrite Hparse.
  cbn [negb]. rewrite Hlt.
  destruct (min_ r <=? d)%float eqn:Hlo; [idtac | reflexivity].
  rewrite (leb_not_gt _ _ Hlo) in Hlt. discriminate.
Qed.

Lemma from_string_above (r : DoubleRange) (value d : float) (s : string) :
  (min_ r <=? max_ r)%float = true ->
  oskar_settings_utility_string_to_double s true = (d, true) ->
  (max_ r <? d)%float = true ->
  DoubleRange_from_string_ r value s = (false, max_ r).
Proof.
  intros Hr Hparse Hgt. unfold DoubleRange_from_string_. rewrite Hparse.
  cbn [negb]. rewrite Hgt, (above_max_not_below_min _ _ _ Hr Hgt).
  destruct (d <=? max_ r)%float eqn:Hhi;
    [idtac | rewrite andb_false_r; reflexivity].
  rewrite (leb_not_gt _ _ Hhi) in Hgt. discriminate.
Qed.

(** X15.  The object the constructor builds has a non-empty range that
    holds its value and its default.  On an object with such a range,
    [set_value] and [set_default] keep it so whatever string they are
    given, and the bounds never move: a string that reads as a number
    below the range makes [set_value] leave the lower bound as the value
    and [set_default] leave it as the default, one that reads as a number
    above the range leaves the upper bound there, and both calls return
    false. *)
Theorem DoubleRange_setters_keep_range (r : DoubleRange) (s : string) :
  DoubleRange_valid DoubleRange_new
  /\ (DoubleRange_valid r ->
      DoubleRange_valid (DoubleRange_set_value r s).2
      /\ DoubleRange_valid (DoubleRange_set_default r s).2
      /\ min_ (DoubleRange_set_value r s).2 = min_ r
      /\ max_ (DoubleRange_set_value r s).2 = max_ r
      /\ min_ (DoubleRange_set_default r s).2 = min_ r
      /\ max_ (DoubleRange_set_default r s).2 = max_ r
      /\ (forall d,
            oskar_settings_utility_string_to_double s true = (d, true) ->
            (d <? min_ r)%float = true ->
            (DoubleRange_set_value r s).1 = false
            /\ value_ (DoubleRange_set_value r s).2 = min_ r
            /\ (DoubleRange_set_default r s).1 = false
            /\ default_ (DoubleRange_set_default r s).2 = min_ r)
      /\ (forall d,
            oskar_settings_utility_string_to_double s true = (d, true) ->
            (max_ r <? d)%float = true ->
            (DoubleRange_set_value r s).1 = false
            /\ value_ (DoubleRange_set_value r s).2 = max_ r
            /\ (DoubleRange_set_default r s).1 = false
            /\ default_ (DoubleRange_set_default r s).2 = max_ r)).
Proof.
  split; [repeat split; vm_compute; reflexivity | idtac].
  intros (Hr & Hv & Hd).
  pose proof (from_string_in_range r (value_ r) s Hr Hv) as Hv'.
  pose proof (from_string_in_range r (default_ r) s Hr Hd) as Hd'.
  pose proof (fun d => from_string_below r (value_ r) d s) as Hbv.
  pose proof (fun d => from_string_below r (default_ r) d s) as Hbd.
  pose proof (fun d => from_string_above r (value_ r) d s Hr) as Hav.
  pose proof (fun d => from_string_above r (default_ r) d s Hr) as Had.
  unfold DoubleRange_set_value, DoubleRange_set_default.
  destruct (DoubleRange_from_string_ r (value_ r) s) as [ok v].
  destruct (DoubleRange_from_string_ r (default_ r) s) as [ok' d'].
  cbn [fst snd] in *. unfold DoubleRange_valid, DoubleRange_in_range in *.
  cbn [min_ max_ value_ default_].
  repeat match goal with |- _ /\ _ => split end;
    try (destruct ok'; tauto).
  - intros d Hparse Hlt.
    specialize (Hbv d Hparse Hlt). specialize (Hbd d Hparse Hlt).
    injection Hbv as -> ->. injection Hbd as -> ->. auto.
  - intros d Hparse Hgt.
    specialize (Hav d Hparse Hgt). specialize (Had d Hparse Hgt).
    injection Hav as -> ->. injection Had as -> ->. auto.
Qed.


(** X17.  A [set_default] that returns true leaves the number it read as
    the default and as the value.  One that returns false leaves the
    value as it was, though the default may have moved to a bound of the
    range. *)
Theorem DoubleRange_set_default_outcomes (r : DoubleRange) (s : string) :
  let d := (oskar_settings_utility_string_to_double s true).1 in
  let r' := (DoubleRange_set_default r s).2 in
  ((DoubleRange_set_default r s).1 = true -> default_ r' = d /\ value_ r' = d)
  /\ ((DoubleRange_set_default r s).1 = false ->
      value_ r' = value_ r
      /\ (default_ r' = default_ r \/ default_ r' = min_ r \/ default_ r' = max_ r)).
Proof.
  cbv zeta. unfold DoubleRange_set_default.
  destruct (from_string_cases r (default_ r) s)
    as [(_ & _ & ->) | [(_ & _ & ->) | [(_ & _ & ->) | (_ & ->)]]];
    cbn; split; intros; try discriminate; auto.
Qed.

End DoubleRangeFacts.


(** ** oskar_station_override_element_orientations *)

Section StationOrientationFacts.
Context {G : OskarGlobal} {L : CRuntime} {T : TextOut}.
Local Open Scope nat_scope.

Lemma same_shape_refl (mem : oskar_Mem) : same_shape mem mem.
Proof. repeat split. Qed.

(** Induction over a station tree. *)
Lemma oskar_Station_tree_ind (P : oskar_Station -> Prop) :
  (forall n x y, P (Station n x y None)) ->
  (forall n x y cs, Forall P cs -> P (Station n x y (Some cs))) ->
  forall s, P s.
Proof.
  intros Hleaf Hnode. fix IH 1. intros [n x y [cs | ]].
  - apply Hnode. induction cs as [ | c cs IHcs]; constructor;
      [apply IH | exact IHcs].
  - apply Hleaf.
Qed.

Lemma orientation_frame_refl (x_pol : Z) (s : oskar_Station) :
  orientation_frame x_pol s s.
Proof.
  induction s as [n x y | n x y cs IH] using oskar_Station_tree_ind.
  - apply orientation_frame_leaf; auto using same_shape_refl.
  - apply orientation_frame_node.
    induction IH; constructor; assumption.
Qed.

(** The loop over the elements of a station without children. *)
Lemma override_orientation_loop_spec (err : float) (n : nat) (d : list elem)
    (rng : rand_state) :
  let r := fold_left (override_orientation_step err) (seq 0 n) (d, rng) in
  r.2 = rand_state_after rng n
  /\ length r.1 = length d
  /\ (forall k, n <= k -> r.1 !! k = d !! k)
  /\ (forall i, i < n -> i < length d ->
        r.1 !! i = Some (ElemReal (elem_real_at d i
                                   + err * gaussian_deviate rng i)%float)).
Proof.
  cbv zeta. induction n as [ | n IH].
  - simpl. repeat split; try reflexivity. intros i Hi. lia.
  - rewrite seq_S, fold_left_app. simpl.
    destruct (fold_left _ (seq 0 n) (d, rng)) as [dn rn].
    cbn [fst snd] in IH. destruct IH as (-> & Hlen & Hrest & Hdone).
    unfold override_orientation_step.
    destruct (oskar_random_gaussian (rand_state_after rng n))
      as [[g g'] rng'] eqn:Hg.
    cbn [fst snd].
    split; [reflexivity | idtac].
    split; [rewrite length_insert; exact Hlen | idtac].
    split.
    + intros k Hk. rewrite list_lookup_insert_ne by lia. apply Hrest. lia.
    + intros i Hi Hd. destruct (decide (i = n)) as [-> | Hne].
      * rewrite list_lookup_insert_eq by lia.
        unfold gaussian_deviate. rewrite Hg. cbn [fst].
        unfold elem_real_at. rewrite (Hrest n (Nat.le_refl n)). reflexivity.
      * rewrite list_lookup_insert_ne by lia. apply Hdone; lia.
Qed.

Lemma override_children_spec (x_pol : Z) recurse (cs : list oskar_Station) :
  Forall (orientation_call_spec x_pol recurse) cs ->
  forall (n : nat) (status : Z) (rng : rand_state),
    Forall2 (orientation_frame x_pol) cs
      (override_children recurse cs n status rng).1.1
    /\ (status <> 0%Z ->
        override_children recurse cs n status rng = (cs, status, rng))
    /\ ((override_children recurse cs n status rng).1.2 = status
        \/ (override_children recurse cs n status rng).1.2
           = OSKAR_ERR_TYPE_MISMATCH).
Proof.
  induction 1 as [ | c cs Hc _ IH]; intros n status rng.
  - simpl. destruct n; simpl; auto.
  - destruct n as [ | n]; simpl.
    + split; [idtac | auto].
      constructor; [apply orientation_frame_refl | idtac].
      clear. induction cs; constructor; auto using orientation_frame_refl.
    + destruct (Hc status rng) as (Hframe & Hnoop & Hst).
      destruct (recurse c status rng) as [[c' st1] rng1].
      destruct (IH n st1 rng1) as (Hframes & Hnoops & Hsts).
      destruct (override_children recurse cs n st1 rng1) as [[cs' st2] rng2] eqn:E.
      cbn [fst snd] in *. split; [constructor; assumption | split].
      * intros Hs. specialize (Hnoop Hs). injection Hnoop as -> -> ->.
        specialize (Hnoops Hs). injection Hnoops as -> -> ->. reflexivity.
      * destruct Hsts as [-> | ->]; auto.
Qed.

Lemma override_orientations_at_spec (x_pol : Z) (err : float) (s : oskar_Station) :
  orientation_call_spec x_pol
    (fun c => override_element_orientations_at c x_pol err) s.
Proof.
  induction s as [n x y | n x y cs IH] using oskar_Station_tree_ind;
    intros status rng.
  - simpl. destruct (Z.eqb_spec status 0) as [-> | Hs]; cbn [negb].
    2:{ split; [apply orientation_frame_refl | auto]. }
    unfold oskar_mem_accessor.
    pose proof (override_orientation_loop_spec err (Z.to_nat n)
                  (oskar_mem_data (if negb (x_pol =? 0)%Z then x else y)) rng)
      as (_ & Hlen & _).
    destruct (fold_left _ _ _) as [d' rng']. cbn [fst snd] in *.
    split; [idtac | split; [intros H; contradiction | idtac]].
    + destruct (Z.eqb_spec x_pol 0) as [-> | Hx]; cbn [negb] in *;
        apply orientation_frame_leaf;
        try apply same_shape_refl; try reflexivity; try contradiction;
        try (intros; congruence);
        repeat split; exact Hlen.
    + destruct (_ =? OSKAR_DOUBLE)%Z; auto.
  - simpl. destruct (Z.eqb_spec status 0) as [-> | Hs]; cbn [negb].
    2:{ split; [apply orientation_frame_refl | auto]. }
    destruct (override_children_spec x_pol _ cs IH (Z.to_nat n) 0%Z rng)
      as (Hframes & _ & Hst).
    destruct (override_children _ cs (Z.to_nat n) 0%Z rng) as [[cs' st'] rng'].
    cbn [fst snd] in *.
    split; [apply orientation_frame_node; exact Hframes | idtac].
    split; [intros H; contradiction | exact Hst].
Qed.

(** X18.  A call on a station tree changes only the contents of the
    orientation arrays that [x_pol] selects at the stations without
    children: the tree keeps its shape and its element counts, the arrays
    of the other polarisation and both arrays of every station with
    children are as before, and a changed array keeps its element type,
    location and length.  The status that comes out is the one that went
    in or the type-mismatch error, and a call entered with an error
    pending leaves the tree and the random generator as they were. *)
Theorem override_orientations_frame (s : oskar_Station) (x_pol : Z)
    (orientation_error_rad : float) (status : Z) (rng : rand_state) :
  exists s' status' rng',
    oskar_station_override_element_orientations (Some s) x_pol
      orientation_error_rad (Some status) rng
    = (Some s', Some status', rng')
    /\ orientation_frame x_pol s s'
    /\ (status' = status \/ status' = OSKAR_ERR_TYPE_MISMATCH)
    /\ (status <> 0%Z -> s' = s /\ status' = status /\ rng' = rng).
Proof.
  unfold oskar_station_override_element_orientations.
  destruct (override_orientations_at_spec x_pol orientation_error_rad s
              status rng) as (Hframe & Hnoop & Hst).
  destruct (override_element_orientations_at s x_pol orientation_error_rad
              status rng) as [[s' status'] rng'].
  cbn [fst snd] in *. exists s', status', rng'.
  split; [reflexivity | split; [exact Hframe | split; [exact Hst | idtac]]].
  intros Hs. specialize (Hnoop Hs). injection Hnoop as -> -> ->. auto.
Qed.

(** X19.  On a station without children whose selected orientation array
    is tagged double, entered with status zero, the status stays zero, the
    generator has been called once per element, and element [i] of the
    array, for [i] below the element count, has grown by the orientation
    error times the first number of the pair that call [i] handed out;
    the elements from the element count on are as before. *)
Theorem override_orientations_leaf_values (s : oskar_Station) (x_pol : Z)
    (orientation_error_rad : float) (rng : rand_state) :
  oskar_station_has_child s = 0%Z ->
  oskar_mem_type (orientation_array x_pol s) = OSKAR_DOUBLE ->
  exists s',
    oskar_station_override_element_orientations (Some s) x_pol
      orientation_error_rad (Some 0%Z) rng
    = (Some s', Some 0%Z,
       rand_state_after rng (Z.to_nat (oskar_station_num_elements s)))
    /\ (forall i,
          i < Z.to_nat (oskar_station_num_elements s) ->
          i < oskar_mem_length (orientation_array x_pol s) ->
          oskar_mem_data (orientation_array x_pol s') !! i
          = Some (ElemReal
                    (elem_real_at (oskar_mem_data (orientation_array x_pol s)) i
                     + orientation_error_rad * gaussian_deviate rng i)%float))
    /\ (forall k,
          Z.to_nat (oskar_station_num_elements s) <= k ->
          oskar_mem_data (orientation_array x_pol s') !! k
          = oskar_mem_data (orientation_array x_pol s) !! k).
Proof.
  destruct s as [n x y [cs | ]]; unfold oskar_station_has_child; simpl;
    [discriminate | intros _].
  unfold orientation_array, oskar_station_override_element_orientations. simpl.
  intros Hty. unfold oskar_mem_accessor.
  pose proof (override_orientation_loop_spec orientation_error_rad (Z.to_nat n)
                (oskar_mem_data (if negb (x_pol =? 0)%Z then x else y)) rng)
    as (Hrng & _ & Hrest & Hdone).
  destruct (fold_left _ _ _) as [d' rng']. cbn [fst snd] in *. subst rng'.
  destruct (negb (x_pol =? 0)%Z); simpl in *; rewrite Hty, Z.eqb_refl;
    eexists; (split; [reflexivity | split]); simpl; assumption.
Qed.

End StationOrientationFacts.

(** ** oskar_station_save_orientation *)

Section SaveOrientationFacts.
Context {G : OskarGlobal} {L : CRuntime} {T : TextOut}.
Local Open Scope nat_scope.


End SaveOrientationFacts.

(** ** Concrete calls of the further properties *)

Section FurtherConcreteCalls.
#[local] Existing Instance sample_global.
#[local] Existing Instance sample_kernels.
#[local] Existing Instance sample_mem_ops.
#[local] Existing Instance sample_runtime.
#[local] Existing Instance sample_io.
#[local] Existing Instance sample_text_out.
#[local] Existing Instance sample_settings_utility.

Lemma auto_power_cpu_runs_matching_kernel_witness :
  oskar_evaluate_auto_power false 2 jones_sc_cpu out_sc_cpu 0
  = (oskar_mem_set_data out_sc_cpu
       (oskar_evaluate_auto_power_scalar_f 2 (oskar_mem_data jones_sc_cpu)
          (oskar_mem_data out_sc_cpu)), 0).
Proof.
  pose proof (auto_power_cpu_runs_matching_kernel false 2 jones_sc_cpu
                out_sc_cpu eq_refl eq_refl eq_refl) as (_ & _ & H & _).
  apply H. reflexivity.
Defined.

Lemma auto_power_gpu_runs_matching_kernel_witness :
  oskar_evaluate_auto_power true 2 jones_sc_gpu out_sc_gpu 0
  = (oskar_mem_set_data out_sc_gpu
       (oskar_evaluate_auto_power_scalar_cuda_f 2 (oskar_mem_data jones_sc_gpu)
          (oskar_mem_data out_sc_gpu)), oskar_device_check_error 0).
Proof.
  pose proof (auto_power_gpu_runs_matching_kernel 2 jones_sc_gpu
                out_sc_gpu eq_refl eq_refl eq_refl) as (_ & _ & H & _).
  apply H. reflexivity.
Defined.

Lemma auto_power_unknown_location_is_silent_witness :
  oskar_evaluate_auto_power true 2 jones_sc_elsewhere out_sc_elsewhere 0
  = (out_sc_elsewhere, 0).
Proof.
  apply (auto_power_unknown_location_is_silent true 2 jones_sc_elsewhere
           out_sc_elsewhere eq_refl eq_refl); vm_compute; discriminate.
Defined.


Lemma load_ascii_row_count_witness :
  ((oskar_mem_load_ascii (Some "sources.txt"%string) 2 (Some 0%Z)
      empty_columns).1.1 <= 2)%nat
  /\ (oskar_mem_load_ascii (Some "sources.txt"%string) 0 (Some 0)
        empty_columns).1.1 = 0%nat
  /\ (oskar_mem_load_ascii (Some "sources.txt"%string) 2
        (Some OSKAR_ERR_FILE_IO) empty_columns).1.1 = 0%nat.
Proof.
  pose proof (load_ascii_row_count (Some "sources.txt"%string) 2 (Some 0)
                empty_columns) as (Hle & _).
  pose proof (load_ascii_row_count (Some "sources.txt"%string) 0 (Some 0)
                empty_columns) as (_ & _ & Hmissing & _).
  pose proof (load_ascii_row_count (Some "sources.txt"%string) 2
                (Some OSKAR_ERR_FILE_IO) empty_columns) as (_ & _ & _ & Hpending).
  split; [idtac | split].
  - apply (Hle "sources.txt"%string ["1 2"; "3 4"]%string); reflexivity.
  - apply Hmissing. right. left. reflexivity.
  - apply (Hpending OSKAR_ERR_FILE_IO); [reflexivity | vm_compute; discriminate].
Defined.

Lemma override_polarisation_errors_witness :
  oskar_sky_override_polarisation (Some (sample_sky_at OSKAR_DOUBLE OSKAR_GPU))
    0.5%float 0.125%float 0%float 0.125%float 1 (Some 0) (0 : rand_state)
  = (Some (sample_sky_at OSKAR_DOUBLE OSKAR_GPU), Some OSKAR_ERR_BAD_LOCATION,
     (0 : rand_state))
  /\ oskar_sky_override_polarisation (Some (sample_sky_at OSKAR_INT OSKAR_CPU))
       0.5%float 0.125%float 0%float 0.125%float 1 (Some 0) (0 : rand_state)
     = (Some (sample_sky_at OSKAR_INT OSKAR_CPU), Some OSKAR_ERR_BAD_DATA_TYPE,
        srand 1).
Proof.
  split.
  - pose proof (override_polarisation_errors
                  (sample_sky_at OSKAR_DOUBLE OSKAR_GPU) 0.5%float 0.125%float
                  0%float 0.125%float 1 (0 : rand_state) eq_refl) as [H _].
    apply H. vm_compute. discriminate.
  - pose proof (override_polarisation_errors
                  (sample_sky_at OSKAR_INT OSKAR_CPU) 0.5%float 0.125%float
                  0%float 0.125%float 1 (0 : rand_state) eq_refl) as [_ H].
    apply H; [reflexivity | vm_compute; discriminate | vm_compute; discriminate].
Defined.

Lemma override_polarisation_reseeds_witness :
  oskar_sky_override_polarisation (Some sample_sky) 0.5%float 0.125%float
    0%float 0.125%float 1 (Some 0) (0 : rand_state)
  = oskar_sky_override_polarisation (Some sample_sky) 0.5%float 0.125%float
      0%float 0.125%float 1 (Some 0) (5 : rand_state).
Proof.
  exact (override_polarisation_reseeds (L := sample_runtime) sample_sky
           0.5%float 0.125%float 0%float 0.125%float 1 0 5 eq_refl eq_refl).
Defined.

Lemma override_polarisation_double_values_witness :
  exists sky' rng' pol_fraction pol_angle_rad,
    oskar_sky_override_polarisation (Some sample_sky) 0.5%float 0.125%float
      0%float 0.125%float 1 (Some 0) (0 : rand_state)
    = (Some sky', Some 0, rng')
    /\ clamped pol_fraction
    /\ oskar_mem_data (oskar_sky_Q sky') !! 1%nat
       = Some (ElemReal (pol_fraction
                         * elem_real_at (oskar_mem_data (oskar_sky_I sample_sky)) 1
                         * libm_cos pol_angle_rad)%float)
    /\ oskar_mem_data (oskar_sky_U sky') !! 1%nat
       = Some (ElemReal (pol_fraction
                         * elem_real_at (oskar_mem_data (oskar_sky_I sample_sky)) 1
                         * libm_sin pol_angle_rad)%float).
Proof.
  apply (override_polarisation_double_values (L := sample_runtime) sample_sky
           0.5%float 0.125%float 0%float 0.125%float 1 0 1%nat);
    try reflexivity; vm_compute; lia.
Defined.

Lemma load_ascii_rejected_witness :
  oskar_mem_load_ascii None 2 (Some 0) empty_columns
  = (0%nat, map fst empty_columns, Some OSKAR_ERR_INVALID_ARGUMENT)
  /\ oskar_mem_load_ascii (Some "missing.txt"%string) 2 (Some 0) empty_columns
     = (0%nat, map fst empty_columns, Some OSKAR_ERR_FILE_IO).
Proof.
  pose proof (load_ascii_rejected None 2 (Some 0) empty_columns) as [Ha _].
  pose proof (load_ascii_rejected (Some "missing.txt"%string) 2 (Some 0)
                empty_columns) as [_ Hb].
  split.
  - apply Ha. left. reflexivity.
  - apply (Hb "missing.txt"%string); [reflexivity | lia | reflexivity | reflexivity].
Defined.

Lemma set_up_required_columns_first_witness :
  let f :=
    set_up_handles_and_defaults empty_columns
      {| su_mem_handle := []; su_row_defaults := [];
         su_num_cols_min := 0; su_num_cols_max := 0;
         su_col_start := 0; su_buffer_size := 0; su_status := 0 |} in
  su_mem_handle f = map fst empty_columns
  /\ su_num_cols_max f = columns_of_args empty_columns
  /\ length (su_row_defaults f) = columns_of_args empty_columns
  /\ exists req opt,
       empty_columns = req ++ opt
       /\ Forall (fun arg => defaults_read arg = 0%nat) req
       /\ Forall (fun arg => defaults_read arg
                             = columns_of_type (oskar_mem_type arg.1)) opt
       /\ su_num_cols_min f = columns_of_args req.
Proof.
  assert (Hcpu : Forall on_cpu empty_columns)
    by (repeat constructor).
  apply (set_up_required_columns_first empty_columns Hcpu). reflexivity.
Defined.

Lemma load_ascii_success_lengths_witness :
  Forall2 same_tags (map fst empty_columns)
    [sample_mem OSKAR_DOUBLE OSKAR_CPU [ElemReal 1; ElemReal 3];
     sample_mem OSKAR_DOUBLE OSKAR_CPU [ElemReal 2; ElemReal 4]]
  /\ Forall (fun mem => oskar_mem_length mem = 2%nat)
       [sample_mem OSKAR_DOUBLE OSKAR_CPU [ElemReal 1; ElemReal 3];
        sample_mem OSKAR_DOUBLE OSKAR_CPU [ElemReal 2; ElemReal 4]].
Proof.
  assert (Hcpu : Forall on_cpu empty_columns)
    by (repeat constructor).
  apply (load_ascii_success_lengths "sources.txt"%string empty_columns 2%nat _ Hcpu).
  vm_compute. reflexivity.
Defined.

Lemma DoubleRange_setters_keep_range_witness :
  DoubleRange_valid (DoubleRange_set_value range_1_5_at_3 "9e0").2
  /\ value_ (DoubleRange_set_value range_1_5_at_3 "9e0").2 = max_ range_1_5_at_3
  /\ default_ (DoubleRange_set_default range_1_5_at_3 "9e0").2
     = max_ range_1_5_at_3.
Proof.
  assert (Hvalid : DoubleRange_valid range_1_5_at_3)
    by (repeat split; vm_compute; reflexivity).
  pose proof (DoubleRange_setters_keep_range range_1_5_at_3 "9e0") as [_ H].
  destruct (H Hvalid) as (Hkept & _ & _ & _ & _ & _ & _ & Habove).
  destruct (Habove 9%float eq_refl eq_refl) as (_ & Hvalue & _ & Hdefault).
  split; [exact Hkept | split; [exact Hvalue | exact Hdefault]].
Defined.

Lemma override_orientations_leaf_values_witness :
  exists s',
    oskar_station_override_element_orientations (Some leaf_station) 1
      0.5%float (Some 0) (0 : rand_state)
    = (Some s', Some 0,
       rand_state_after (0 : rand_state)
         (Z.to_nat (oskar_station_num_elements leaf_station)))
    /\ (forall i : nat,
          (i < Z.to_nat (oskar_station_num_elements leaf_station))%nat ->
          (i < oskar_mem_length (orientation_array 1 leaf_station))%nat ->
          oskar_mem_data (orientation_array 1 s') !! i
          = Some (ElemReal
                    (elem_real_at
                       (oskar_mem_data (orientation_array 1 leaf_station)) i
                     + 0.5 * gaussian_deviate (0%Z : rand_state) i)%float))
    /\ (forall k : nat,
          (Z.to_nat (oskar_station_num_elements leaf_station) <= k)%nat ->
          oskar_mem_data (orientation_array 1 s') !! k
          = oskar_mem_data (orientation_array 1 leaf_station) !! k).
Proof.
  apply (override_orientations_leaf_values (L := sample_runtime) leaf_station
           1 0.5%float 0); reflexivity.
Defined.


End FurtherConcreteCalls.
